(** * Hello GPT: the greeting proxy endpoint and the client view

    A shallow embedding of the two handlers of the repository:

    - [GET] of [app/api/hello/route.js], the server-side proxy that
      forwards a fixed prompt to the completion service and normalises
      the answer;
    - [onSubmit] of [app/page.js], the click handler of the client view.

    JavaScript values are an inductive type, objects are finite maps,
    exceptions are an error monad that also carries the console, and the
    two [fetch] calls are inputs supplied by the environment. *)

From Stdlib Require Import ZArith List Ascii String Bool Lia.
From stdpp Require Import base option list countable gmap.

Local Open Scope string_scope.
Local Open Scope list_scope.
Local Open Scope Z_scope.

(** ** Strings *)

Module JsString.

(** A JavaScript string is a sequence of UTF-16 code units. *)
Definition code_unit := N.
Definition jsstring := list code_unit.

(** A source literal, one code unit per character. *)
Definition lit (s : string) : jsstring :=
  List.map N_of_ascii (list_ascii_of_string s).

(** WhiteSpace and LineTerminator code points of ECMAScript, the ones
    [String.prototype.trim] removes. *)
Definition is_white_space (c : code_unit) : bool :=
  ((9 <=? c) && (c <=? 13))%N          (* TAB LF VT FF CR *)
  || (c =? 32)%N                        (* SPACE *)
  || (c =? 160)%N                       (* NO-BREAK SPACE *)
  || (c =? 5760)%N                      (* U+1680 *)
  || ((8192 <=? c) && (c <=? 8202))%N   (* U+2000..U+200A *)
  || (c =? 8232)%N || (c =? 8233)%N     (* LINE / PARAGRAPH SEPARATOR *)
  || (c =? 8239)%N || (c =? 8287)%N     (* U+202F, U+205F *)
  || (c =? 12288)%N                     (* U+3000 *)
  || (c =? 65279)%N.                    (* U+FEFF *)

Fixpoint trim_start (s : jsstring) : jsstring :=
  match s with
  | c :: s' => if is_white_space c then trim_start s' else s
  | [] => []
  end.

Definition trim_end (s : jsstring) : jsstring :=
  rev (trim_start (rev s)).

(** [String.prototype.trim] *)
Definition trim (s : jsstring) : jsstring := trim_end (trim_start s).

Definition is_digit (c : code_unit) : bool := ((48 <=? c) && (c <=? 57))%N.

(** Value of a run of decimal digits, [None] when another code unit
    occurs. *)
Fixpoint digits_value (acc : Z) (s : jsstring) : option Z :=
  match s with
  | [] => Some acc
  | c :: s' =>
      if is_digit c then digits_value (10 * acc + (Z.of_N c - 48)) s'
      else None
  end.

(** A canonical array index: ["0"], or digits without a leading zero. *)
Definition array_index (k : jsstring) : option nat :=
  match k with
  | [] => None
  | c :: rest =>
      if (c =? 48)%N then (match rest with [] => Some 0%nat | _ => None end)
      else Z.to_nat <$> digits_value 0 k
  end.

End JsString.
Import JsString.

(** ** Values *)

(** What [JSON.parse] can produce, and [undefined], which reading a
    missing property produces.  Numbers are kept to the integers: the
    handlers only pass them on. *)
#[warnings="-register-all"]
Inductive value : Type :=
| VUndefined
| VNull
| VBool (b : bool)
| VNum (n : Z)
| VStr (s : jsstring)
| VArr (elems : list value)
| VObj (props : gmap jsstring value).

(** An object literal [{ k1: v1, ... }]; a later duplicate key wins. *)
Definition obj (fields : list (string * value)) : value :=
  VObj (fold_left (fun m kv => <[lit kv.1 := kv.2]> m) fields ∅).

(** ** Exceptions and the console *)

Module Error.
(** An [Error] object with the two properties [GET] attaches to it;
    errors raised by the platform leave both [undefined]. *)
Record t := make { message : jsstring; statusCode : value; body : value }.

Definition plain (msg : jsstring) : t :=
  {| message := msg; statusCode := VUndefined; body := VUndefined |}.
End Error.

(** A line of [console.log]: the template literal with the values that
    fill its holes. *)
Inductive log_line : Type :=
| LogResults (completionText : jsstring) (prompt completion total : value)
| LogThrown (message : jsstring) (statusCode : value) (body : value).

Inductive completion (A : Type) : Type :=
| Normal (a : A)
| Throw (e : Error.t).
Arguments Normal {A} a.
Arguments Throw {A} e.

(** Computations over a store [St] that may throw: the store is the
    console for [GET] and the component state for [onSubmit]. *)
Definition M (St A : Type) : Type := St -> St * completion A.

Section Monad.
Context {St : Type}.

Definition ret {A} (a : A) : M St A := fun st => (st, Normal a).

Definition bind {A B} (m : M St A) (k : A -> M St B) : M St B :=
  fun st =>
    match m st with
    | (st', Normal a) => k a st'
    | (st', Throw e) => (st', Throw e)
    end.

Definition throw {A} (e : Error.t) : M St A := fun st => (st, Throw e).

Definition lift {A} (c : completion A) : M St A := fun st => (st, c).

Definition modify (f : St -> St) : M St unit := fun st => (f st, Normal tt).

(** [try { body } catch (error) { handler }] *)
Definition try_catch {A} (body : M St A) (handler : Error.t -> M St A) : M St A :=
  fun st =>
    match body st with
    | (st', Normal a) => (st', Normal a)
    | (st', Throw e) => handler e st'
    end.
End Monad.

#[global] Instance M_ret {St} : MRet (M St) := @ret St.
#[global] Instance M_bind {St} : MBind (M St) := fun A B k m => bind m k.

(** ** Reading properties *)

Definition VString (s : string) : value := VStr (lit s).

(** The message V8 gives to a read through [undefined] or [null]. *)
Definition cannot_read (base : value) (key : jsstring) : Error.t :=
  Error.plain
    (lit "Cannot read properties of "
       ++ (match base with VNull => lit "null" | _ => lit "undefined" end)
       ++ lit " (reading '" ++ key ++ lit "')").

(** [base.key] and [base[key]] for a data property.  The names the two
    handlers read are on no prototype, so besides own properties only
    the elements and [length] of arrays and strings are found. *)
Definition get (base : value) (key : jsstring) : completion value :=
  match base with
  | VUndefined | VNull => Throw (cannot_read base key)
  | VObj props => Normal (default VUndefined (props !! key))
  | VArr elems =>
      match array_index key with
      | Some i => Normal (default VUndefined (elems !! i))
      | None =>
          if decide (key = lit "length")
          then Normal (VNum (Z.of_nat (length elems)))
          else Normal VUndefined
      end
  | VStr s =>
      match array_index key with
      | Some i => Normal (from_option (fun c => VStr [c]) VUndefined (s !! i))
      | None =>
          if decide (key = lit "length")
          then Normal (VNum (Z.of_nat (length s)))
          else Normal VUndefined
      end
  | VBool _ | VNum _ => Normal VUndefined
  end.

Definition prop {St} (base : value) (key : string) : M St value :=
  lift (get base (lit key)).

(** The own property [key] of a parsed object, if it has one. *)
Definition own (v : value) (key : string) : option value :=
  match v with
  | VObj props => props !! lit key
  | _ => None
  end.

(** [base.trim()]: only a string finds the method. *)
Definition call_trim {St} (path : string) (base : value) : M St jsstring :=
  match base with
  | VStr s => ret (trim s)
  | VUndefined | VNull => throw (cannot_read base (lit "trim"))
  | _ => throw (Error.plain (lit path ++ lit ".trim is not a function"))
  end.

(** ToString, as far as it can throw.  Parsed JSON holds nothing that
    can be called, so an object with an own [toString] member has no
    way to a primitive and the conversion throws a TypeError; an array
    is joined from the conversions of its elements; every other value
    converts. *)
Fixpoint to_string_throws (v : value) : bool :=
  match v with
  | VObj props => bool_decide (is_Some (props !! lit "toString"))
  | VArr elems => existsb to_string_throws elems
  | _ => false
  end.

(** A hole [${v}] of a template literal.  The text it yields is not
    built: the hole gives back the value, once the conversion has not
    thrown. *)
Definition template_hole {St} (v : value) : M St value :=
  if to_string_throws v
  then throw (Error.plain (lit "Cannot convert object to primitive value"))
  else ret v.

(** ToBoolean *)
Definition truthy (v : value) : bool :=
  match v with
  | VUndefined | VNull => false
  | VBool b => b
  | VNum n => negb (n =? 0)
  | VStr s => match s with [] => false | _ => true end
  | VArr _ | VObj _ => true
  end.

(** [a || b] *)
Definition or_else (a b : value) : value := if truthy a then a else b.

(** ** The Fetch API *)

Definition null_body_status (s : Z) : bool :=
  (s =? 101) || (s =? 103) || (s =? 204) || (s =? 205) || (s =? 304).

Module Response.
(** A [Response] made by a handler.  [body] is the value given to
    [JSON.stringify]; the text itself is the platform's. *)
Record t := make {
  status : Z;
  headers : list (string * string);
  body : value
}.

(** ToNumber, with [None] for NaN.  Of the numeric strings only runs
    of decimal digits between white space are read, and arrays and
    objects are not converted: [GET] passes a number or ["500"]. *)
Definition to_number (v : value) : option Z :=
  match v with
  | VNum n => Some n
  | VStr s => digits_value 0 (trim s)
  | VBool b => Some (if b then 1 else 0)
  | VNull => Some 0
  | VUndefined | VArr _ | VObj _ => None
  end.

(** Conversion to WebIDL [unsigned short]. *)
Definition to_unsigned_short (v : value) : Z :=
  match to_number v with
  | Some n => n mod 65536
  | None => 0
  end.

(** [new Response(JSON.stringify(body), { status, headers })]: the
    constructor rejects a status outside 200..599, and a body together
    with a null body status. *)
Definition new {St} (body : value) (status : value)
    (headers : list (string * string)) : M St t :=
  let s := to_unsigned_short status in
  if negb ((200 <=? s) && (s <=? 599)) then
    throw (Error.plain (lit "init.status must be in the range of 200 to 599, inclusive."))
  else if null_body_status s then
    throw (Error.plain (lit "Response with null body status cannot have body"))
  else ret {| status := s; headers := headers; body := body |}.
End Response.

Module Request.
(** The second argument of [fetch]. *)
Record init := make {
  method : string;
  headers : list (string * jsstring);
  body : value   (* the value given to [JSON.stringify] *)
}.
End Request.

Module Fetch.
(** What [response.json()] settles to: the parsed body, or a rejection
    when the body is not JSON or cannot be read. *)
Inductive parsed : Type :=
| Json (v : value)
| NotJson (message : jsstring).

Record response := make { status : Z; payload : parsed }.

(** What [fetch(url, init)] settles to. *)
Inductive result : Type :=
| Resolves (r : response)
| Rejects (message : jsstring).

Definition await {St} (r : result) : M St response :=
  match r with
  | Resolves res => mret res
  | Rejects msg => throw (Error.plain msg)
  end.

Definition json {St} (res : response) : M St value :=
  match payload res with
  | Json v => mret v
  | NotJson msg => throw (Error.plain msg)
  end.

(** The settled calls whose status the endpoint can hand on to its own
    caller: a response is made only with a status from 200 to 599, and
    with a body only outside the null body statuses, under which
    [json()] has had no body to parse either.  This is not all that
    [fetch] resolves with: it also resolves with the statuses 600 to
    999, on which the endpoint returns no response. *)
Definition deliverable (r : result) : bool :=
  match r with
  | Rejects _ => true
  | Resolves res =>
      (200 <=? status res) && (status res <=? 599)
      && (if null_body_status (status res)
          then match payload res with Json _ => false | NotJson _ => true end
          else true)
  end.
End Fetch.

(** ** app/api/hello/route.js *)

(** The exported [GET] (lines 62 to 185 of the file), statement by
    statement; the bound names are the source's. *)
Module Route.

Definition console := list log_line.

Definition console_log (l : log_line) : M console unit :=
  modify (fun out => out ++ [l]).

(** Line 53: the route is never cached. *)
Definition dynamic : string := "force-dynamic".

Definition quote : jsstring := [34%N].

Definition promptText : jsstring :=
  lit "Write five variations of " ++ quote ++ lit "Hello, World!" ++ quote ++ lit "

Start each variation on a new line. Do not include additional information.

Here is an example:

Hello, World!
Bonjour, Earth!
Hey, Universe!
Hola, Galaxy!
G'day, World!".

Definition createChatCompletionEndpointURL : string :=
  "https://api.openai.com/v1/chat/completions".

Definition createChatCompletionReqParams : value :=
  obj [("model", VString "gpt-3.5-turbo");
       ("messages", VArr [obj [("role", VString "user");
                               ("content", VStr promptText)]])].

(** ["Bearer " + process.env.OPENAI_API_KEY]; an unset variable reads
    as [undefined]. *)
Definition authorization (OPENAI_API_KEY : option jsstring) : jsstring :=
  lit "Bearer " ++ default (lit "undefined") OPENAI_API_KEY.

Definition request (OPENAI_API_KEY : option jsstring) : Request.init :=
  {| Request.method := "POST";
     Request.headers :=
       [("Content-Type", lit "application/json");
        ("Authorization", authorization OPENAI_API_KEY)];
     Request.body := createChatCompletionReqParams |}.

Definition json_headers : list (string * string) :=
  [("Content-Type", "application/json")].

Definition unsuccessful (status : Z) (resBody : value) : Error.t :=
  {| Error.message := lit "Create chat completion request was unsuccessful.";
     Error.statusCode := VNum status;
     Error.body := resBody |}.

Definition error_body : value :=
  obj [("error", obj [("message", VString "An error has occurred")])].

Definition content_path : string :=
  "createChatCompletionResBody.choices[0].message.content".

Section Handler.
(** The process environment and the network are the handler's inputs. *)
Variable OPENAI_API_KEY : option jsstring.
Variable fetch : string -> Request.init -> Fetch.result.

(** The [try] block, lines 65 to 166.  The three counters are read and
    converted, one after the other, when the template literal of the log
    line is evaluated, before anything is written or returned. *)
Definition GET_try : M console Response.t :=
  createChatCompletionRes ←
    Fetch.await (fetch createChatCompletionEndpointURL (request OPENAI_API_KEY));
  createChatCompletionResBody ← Fetch.json createChatCompletionRes;
  (if decide (Fetch.status createChatCompletionRes ≠ 200)
   then throw (unsuccessful (Fetch.status createChatCompletionRes)
                            createChatCompletionResBody)
   else mret tt);;
  choices ← prop createChatCompletionResBody "choices";
  choice ← prop choices "0";
  message ← prop choice "message";
  content ← prop message "content";
  completionText ← call_trim content_path content;
  usage ← prop createChatCompletionResBody "usage";
  prompt_tokens ← prop usage "prompt_tokens";
  prompt_tokens ← template_hole prompt_tokens;
  completion_tokens ← prop usage "completion_tokens";
  completion_tokens ← template_hole completion_tokens;
  total_tokens ← prop usage "total_tokens";
  total_tokens ← template_hole total_tokens;
  console_log (LogResults completionText prompt_tokens completion_tokens total_tokens);;
  Response.new (obj [("completion", VStr completionText)]) (VNum 200) json_headers.

(** The [catch] block, lines 167 to 184. *)
Definition GET_catch (error : Error.t) : M console Response.t :=
  console_log (LogThrown (Error.message error) (Error.statusCode error)
                         (Error.body error));;
  Response.new error_body (or_else (Error.statusCode error) (VString "500"))
               json_headers.

Definition GET : M console Response.t := try_catch GET_try GET_catch.
End Handler.

(** One invocation, from an empty console. *)
Definition invoke (key : option jsstring)
    (fetch : string -> Request.init -> Fetch.result) : console * completion Response.t :=
  GET key fetch [].

(** The response the caller receives, when the handler returns one. *)
Definition returned (key : option jsstring)
    (fetch : string -> Request.init -> Fetch.result) : option Response.t :=
  match (invoke key fetch).2 with
  | Normal r => Some r
  | Throw _ => None
  end.

End Route.

(** ** app/page.js *)

(** The state and the submit handler of [Home], as the guide to the
    file lists them (PAGE_JS_GUIDE.md, lines 82 to 83 and 113 to 127). *)
Module Page.

(** The two [useState] cells, and the flag of the submit event the
    handler is given. *)
Record state := make {
  reply : value;
  loadingStatus : bool;
  defaultPrevented : bool
}.

(** The empty string and [false], before any click. *)
Definition initial : state :=
  {| reply := VStr []; loadingStatus := false; defaultPrevented := false |}.

Definition setReply (v : value) : M state unit :=
  modify (fun st => {| reply := v; loadingStatus := loadingStatus st;
                       defaultPrevented := defaultPrevented st |}).

Definition setLoadingStatus (b : bool) : M state unit :=
  modify (fun st => {| reply := reply st; loadingStatus := b;
                       defaultPrevented := defaultPrevented st |}).

Definition preventDefault : M state unit :=
  modify (fun st => {| reply := reply st; loadingStatus := loadingStatus st;
                       defaultPrevented := true |}).

Definition fallback : value := VString "An error has occurred".

Section Handler.
Variable fetch : string -> Fetch.result.

(** Up to the first [await]. *)
Definition onSubmit_start : M state unit :=
  preventDefault;;
  setLoadingStatus true.

(** The [try] block; the conditional expression is evaluated before
    [setReply] is called. *)
Definition onSubmit_try : M state unit :=
  response ← Fetch.await (fetch "/api/hello");
  body ← Fetch.json response;
  text ← (if decide (Fetch.status response = 200)
          then prop body "completion"
          else error ← prop body "error"; prop error "message");
  setReply text.

Definition onSubmit : M state unit :=
  onSubmit_start;;
  try_catch onSubmit_try (fun _ => setReply fallback);;
  setLoadingStatus false.
End Handler.

(** The display state after a click whose call settles as [settled]. *)
Definition after (settled : Fetch.result) (st : state) : state :=
  (onSubmit (fun _ => settled) st).1.

End Page.

(** ** The vocabulary of the specification *)

(** What trimming leaves behind. *)
Module Trimmed.

Definition all_white_space (s : jsstring) : Prop :=
  Forall (fun c => is_white_space c = true) s.

Definition starts_clean (s : jsstring) : Prop :=
  match s with
  | [] => True
  | c :: _ => is_white_space c = false
  end.

End Trimmed.

(** The shape of the completion service's answer, in terms of own
    properties of the parsed body. *)
Module Upstream.

Definition first (v : value) : option value :=
  match v with
  | VArr elems => elems !! 0%nat
  | _ => None
  end.

(** [choices[0].message.content] *)
Definition content_of (resBody : value) : option value :=
  choices ← own resBody "choices";
  choice ← first choices;
  message ← own choice "message";
  own message "content".

(** [usage.<name>] *)
Definition counter (resBody : value) (name : string) : option value :=
  usage ← own resBody "usage";
  own usage name.

Definition has_content (resBody : value) (content : jsstring) : Prop :=
  content_of resBody = Some (VStr content).

Definition has_counters (resBody : value) : Prop :=
  exists p c t : Z,
    counter resBody "prompt_tokens" = Some (VNum p)
    /\ counter resBody "completion_tokens" = Some (VNum c)
    /\ counter resBody "total_tokens" = Some (VNum t).

Definition counters_absent (resBody : value) : Prop :=
  counter resBody "prompt_tokens" = None
  /\ counter resBody "completion_tokens" = None
  /\ counter resBody "total_tokens" = None.

(** The documented answer: the generated text and the three token
    counters. *)
Definition well_formed (resBody : value) (content : jsstring) : Prop :=
  has_content resBody content /\ has_counters resBody.

(** No [usage] member at all, or [null] in its place. *)
Definition usage_missing (resBody : value) : Prop :=
  own resBody "usage" = None \/ own resBody "usage" = Some VNull.

End Upstream.

(** The outbound call of the proxy endpoint, [fetch] together with the
    reading of the body: it returns a status and a parsed body, or it
    throws. *)
Module Outbound.

Definition call (key : option jsstring)
    (fetch : string -> Request.init -> Fetch.result) : Fetch.result :=
  fetch Route.createChatCompletionEndpointURL (Route.request key).

Inductive returns : Fetch.result -> Z -> value -> Prop :=
| returns_intro status resBody :
    returns (Fetch.Resolves {| Fetch.status := status;
                               Fetch.payload := Fetch.Json resBody |})
            status resBody.

Inductive throws : Fetch.result -> jsstring -> Prop :=
| throws_network msg :
    throws (Fetch.Rejects msg) msg
| throws_parsing status msg :
    throws (Fetch.Resolves {| Fetch.status := status;
                              Fetch.payload := Fetch.NotJson msg |})
           msg.

End Outbound.

(** The two responses of the proxy endpoint's contract. *)
Module Contract.

Definition generic_message : string := "An error has occurred".

Definition success (completionText : jsstring) : Response.t :=
  {| Response.status := 200;
     Response.headers := [("Content-Type", "application/json")];
     Response.body := obj [("completion", VStr completionText)] |}.

Definition failure (status : Z) : Response.t :=
  {| Response.status := status;
     Response.headers := [("Content-Type", "application/json")];
     Response.body := obj [("error", obj [("message", VString generic_message)])] |}.

End Contract.

(** How the client view's call to the proxy endpoint can end. *)
Module Call.

(** The display state once the handler has run to its end. *)
Definition settled_with (text : value) : Page.state :=
  {| Page.reply := text; Page.loadingStatus := false; Page.defaultPrevented := true |}.

(** The call fails to complete: [fetch] throws, the body cannot be read
    as JSON, or the body is [null], on which any property read throws. *)
Inductive fails : Fetch.result -> Prop :=
| fails_fetch msg :
    fails (Fetch.Rejects msg)
| fails_json status msg :
    fails (Fetch.Resolves {| Fetch.status := status; Fetch.payload := Fetch.NotJson msg |})
| fails_read status :
    fails (Fetch.Resolves {| Fetch.status := status; Fetch.payload := Fetch.Json VNull |}).

(** [body.error] is not there to be dereferenced. *)
Definition error_missing (body : value) : Prop :=
  own body "error" = None \/ own body "error" = Some VNull.

End Call.

(** ** The rest of [Home]: what the page shows *)

(** The result area of the JSX that [Home] returns (PAGE_JS_GUIDE.md,
    lines 299 to 313): the conditional on [loadingStatus].  Elements
    are kept with their tag, the attributes that are not styling, and
    their children; the class names are left out. *)
Module View.

#[warnings="-register-all"]
Inductive element : Type :=
| Div (children : list element)
| Image (src : string) (width height : Z)
| P (child : value).

Definition result_area (st : Page.state) : element :=
  if Page.loadingStatus st
  then Div [Image "three-dots.svg" 60 15]
  else Div [P (Page.reply st)].

(** The text child on display, if a paragraph is shown. *)
Definition displayed (e : element) : option value :=
  match e with
  | Div [P child] => Some child
  | _ => None
  end.

End View.

(** The proxy endpoint's response as the client's [fetch] receives it.
    The body travels as the text [JSON.stringify] made, and [json()]
    parses it back: on the objects [GET] builds, whose leaves are
    strings, parsing gives the value that was written. *)
Module Transport.

Definition serve (r : Response.t) : Fetch.result :=
  Fetch.Resolves {| Fetch.status := Response.status r;
                    Fetch.payload := Fetch.Json (Response.body r) |}.

End Transport.

(** Values on which a property read throws. *)
Definition nullish (v : value) : bool :=
  match v with
  | VUndefined | VNull => true
  | _ => false
  end.

(** [choices[0].message.content] as the handler reads it, through
    [get]: on every kind of value, not only on the documented shape. *)
Definition read_content (resBody : value) : completion value :=
  match get resBody (lit "choices") with
  | Throw e => Throw e
  | Normal choices =>
      match get choices (lit "0") with
      | Throw e => Throw e
      | Normal choice =>
          match get choice (lit "message") with
          | Throw e => Throw e
          | Normal message => get message (lit "content")
          end
      end
  end.

(** The three counters of the log line, in the order the template
    literal reads them. *)
Definition counters : list string :=
  ["prompt_tokens"; "completion_tokens"; "total_tokens"].

(** Clicks that overlap.  A run of [onSubmit] writes to the state in two
    stretches with nothing of its own in between: up to the first
    [await], and from the last settlement on (when [fetch] rejects, or
    else when [json()] settles).  Other clicks can start and settle
    between the two; nothing in the source keeps them apart. *)
Module Clicks.

(** From the last settlement to the end of the handler. *)
Definition onSubmit_finish (settled : Fetch.result) : M Page.state unit :=
  try_catch (Page.onSubmit_try (fun _ => settled))
            (fun _ => Page.setReply Page.fallback);;
  Page.setLoadingStatus false.

Inductive event : Type :=
| Click
| Settle (settled : Fetch.result).

Definition step (st : Page.state) (e : event) : Page.state :=
  match e with
  | Click => (Page.onSubmit_start st).1
  | Settle settled => (onSubmit_finish settled st).1
  end.

(** The state after a sequence of events, the earliest first. *)
Definition run (events : list event) (st : Page.state) : Page.state :=
  fold_left step events st.

End Clicks.

Module Try.

(** How the [try] block can end: with the success response and one log
    line, or, nothing written yet, with an error of the platform or with
    the error of the status check. *)
Inductive outcome (key : option jsstring)
    (fetch : string -> Request.init -> Fetch.result)
    (out : Route.console) (c : completion Response.t) : Prop :=
| try_returns resBody content usage p ct t :
    Outbound.returns (Outbound.call key fetch) 200 resBody ->
    read_content resBody = Normal (VStr content) ->
    get resBody (lit "usage") = Normal usage ->
    nullish usage = false ->
    get usage (lit "prompt_tokens") = Normal p ->
    get usage (lit "completion_tokens") = Normal ct ->
    get usage (lit "total_tokens") = Normal t ->
    to_string_throws p = false ->
    to_string_throws ct = false ->
    to_string_throws t = false ->
    out = [LogResults (trim content) p ct t] ->
    c = Normal (Contract.success (trim content)) ->
    outcome key fetch out c
| try_throws_plain msg :
    out = [] ->
    c = Throw (Error.plain msg) ->
    outcome key fetch out c
| try_throws_unsuccessful status resBody :
    Outbound.returns (Outbound.call key fetch) status resBody ->
    status <> 200 ->
    out = [] ->
    c = Throw (Route.unsuccessful status resBody) ->
    outcome key fetch out c.

End Try.

(** * Properties *)

(** ** Equations of the monad *)

Section Equations.
Context {St : Type}.

Lemma bind_normal {A B} (m : M St A) (k : A -> M St B) st st' a :
  m st = (st', Normal a) -> (m ≫= k) st = k a st'.
Proof. intros H. unfold mbind, M_bind, bind. by rewrite H. Qed.

Lemma bind_throw {A B} (m : M St A) (k : A -> M St B) st st' e :
  m st = (st', Throw e) -> (m ≫= k) st = (st', Throw e).
Proof. intros H. unfold mbind, M_bind, bind. by rewrite H. Qed.

Lemma try_catch_normal {A} (m : M St A) h st st' a :
  m st = (st', Normal a) -> try_catch m h st = (st', Normal a).
Proof. intros H. unfold try_catch. by rewrite H. Qed.

Lemma try_catch_throw {A} (m : M St A) h st st' e :
  m st = (st', Throw e) -> try_catch m h st = h e st'.
Proof. intros H. unfold try_catch. by rewrite H. Qed.

Lemma prop_own props key v (st : St) :
  props !! lit key = Some v -> prop (VObj props) key st = (st, Normal v).
Proof. intros H. unfold prop, lift, get. by rewrite H. Qed.

Lemma prop_missing props key (st : St) :
  props !! lit key = None -> prop (VObj props) key st = (st, Normal VUndefined).
Proof. intros H. unfold prop, lift, get. by rewrite H. Qed.

Lemma prop_first x rest (st : St) :
  prop (VArr (x :: rest)) "0" st = (st, Normal x).
Proof. reflexivity. Qed.

Lemma prop_undefined key (st : St) :
  prop VUndefined key st = (st, Throw (cannot_read VUndefined (lit key))).
Proof. reflexivity. Qed.

Lemma prop_null key (st : St) :
  prop VNull key st = (st, Throw (cannot_read VNull (lit key))).
Proof. reflexivity. Qed.

Lemma bind_inv {A B} (m : M St A) (k : A -> M St B) st st' b :
  (m ≫= k) st = (st', Normal b) ->
  exists st1 a, m st = (st1, Normal a) /\ k a st1 = (st', Normal b).
Proof.
  unfold mbind, M_bind, bind.
  destruct (m st) as [st1 [a|e]]; [eauto | discriminate].
Qed.

Lemma prop_inv base key (st st' : St) v :
  prop base key st = (st', Normal v) -> st' = st /\ get base (lit key) = Normal v.
Proof. unfold prop, lift. by intros [= -> ->]. Qed.
End Equations.

(** Steps through a sequence of statements whose first one is known. *)
Ltac step :=
  first
    [ erewrite bind_normal by
        first [ eapply prop_own; eassumption
              | eapply prop_missing; eassumption
              | apply prop_first | reflexivity ]
    | erewrite bind_throw by
        first [ apply prop_undefined | apply prop_null | reflexivity ] ].

(** ** Trimming *)

Module TrimFacts.
Import Trimmed.

Lemma trim_start_split s :
  exists l, s = l ++ trim_start s /\ all_white_space l.
Proof.
  induction s as [|c s (l & Hs & Hl)]; simpl.
  - exists []. split; [done | constructor].
  - destruct (is_white_space c) eqn:Hc.
    + exists (c :: l). split; [by rewrite <- app_comm_cons, <- Hs | by constructor].
    + exists []. split; [done | constructor].
Qed.

Lemma trim_start_clean s : starts_clean (trim_start s).
Proof.
  induction s as [|c s IH]; simpl; [done|].
  destruct (is_white_space c) eqn:Hc; [done | by simpl].
Qed.

Lemma all_white_space_rev l : all_white_space l -> all_white_space (rev l).
Proof. apply Forall_rev. Qed.

(** [trim] removes a run of white space from each end and nothing else,
    and what it leaves neither starts nor ends with white space. *)
Lemma trim_split s :
  exists l r,
    s = l ++ trim s ++ r
    /\ all_white_space l /\ all_white_space r
    /\ starts_clean (trim s) /\ starts_clean (rev (trim s)).
Proof.
  unfold trim, trim_end.
  destruct (trim_start_split s) as (l & Hs & Hl).
  destruct (trim_start_split (rev (trim_start s))) as (r & Hr & Hwr).
  pose proof (trim_start_clean s) as Hclean.
  pose proof (trim_start_clean (rev (trim_start s))) as Hclean'.
  set (t := trim_start s) in *. set (u := trim_start (rev t)) in *.
  assert (Ht : t = rev u ++ rev r).
  { rewrite <- (rev_involutive t), Hr. by rewrite rev_app_distr. }
  exists l, (rev r). repeat split.
  - by rewrite <- Ht.
  - done.
  - by apply all_white_space_rev.
  - rewrite Ht in Hclean. destruct (rev u) as [|c w] eqn:Hu; [done | exact Hclean].
  - by rewrite rev_involutive.
Qed.

Lemma trim_idempotent_on_clean s :
  starts_clean s -> starts_clean (rev s) -> trim s = s.
Proof.
  intros Hs Hr. unfold trim, trim_end.
  assert (forall t, starts_clean t -> trim_start t = t) as Hfix.
  { intros [|c t]; simpl; [done|]. by intros ->. }
  rewrite (Hfix s Hs), (Hfix (rev s) Hr). apply rev_involutive.
Qed.

End TrimFacts.

(** ** Running the model *)

Example lit_example : lit "Hi" = [72%N; 105%N].
Proof. reflexivity. Qed.

Example trim_example : trim (lit "  Hi there!  ") = lit "Hi there!".
Proof. reflexivity. Qed.

Example authorization_unset : Route.authorization None = lit "Bearer undefined".
Proof. reflexivity. Qed.

(** The string ["500"] becomes the number 500 in the response. *)
Example status_string_to_number :
  Response.to_unsigned_short (VString "500") = 500.
Proof. reflexivity. Qed.

(** A status the constructor does not accept: the catch block itself
    throws and the handler returns nothing. *)
Example status_out_of_range :
  Route.returned None
    (fun _ _ => Fetch.Resolves {| Fetch.status := 999;
                                  Fetch.payload := Fetch.Json (obj []) |})
  = None.
Proof. reflexivity. Qed.

(** An upstream error page that is not JSON loses its status. *)
Example status_lost_with_body :
  Route.returned None
    (fun _ _ => Fetch.Resolves
       {| Fetch.status := 502;
          Fetch.payload := Fetch.NotJson (lit "Unexpected token < in JSON at position 0") |})
  = Some (Contract.failure 500).
Proof. reflexivity. Qed.

(** ** The completion service's answer *)

Module UpstreamFacts.
Import Upstream.

Lemma own_Some v key x :
  own v key = Some x -> exists props, v = VObj props /\ props !! lit key = Some x.
Proof. destruct v; simpl; try discriminate. eauto. Qed.

Lemma first_Some v x :
  first v = Some x -> exists rest, v = VArr (x :: rest).
Proof.
  destruct v as [| | | | |elems|]; simpl; try discriminate.
  destruct elems as [|y rest]; simpl; [discriminate|].
  intros [= ->]. eauto.
Qed.

Lemma has_content_inv resBody content :
  has_content resBody content ->
  exists props choice rest message,
    resBody = VObj props
    /\ props !! lit "choices" = Some (VArr (VObj choice :: rest))
    /\ choice !! lit "message" = Some (VObj message)
    /\ message !! lit "content" = Some (VStr content).
Proof.
  unfold has_content, content_of. intros H.
  destruct (own resBody "choices") as [choices|] eqn:E1; simpl in H; [|discriminate].
  destruct (first choices) as [choice|] eqn:E2; simpl in H; [|discriminate].
  destruct (own choice "message") as [message|] eqn:E3; simpl in H; [|discriminate].
  apply own_Some in E1 as (props & -> & E1).
  apply first_Some in E2 as (rest & ->).
  apply own_Some in E3 as (cprops & -> & E3).
  apply own_Some in H as (mprops & -> & H).
  exists props, cprops, rest, mprops. auto.
Qed.

Lemma counter_Some resBody name x :
  counter resBody name = Some x ->
  exists props usage,
    resBody = VObj props
    /\ props !! lit "usage" = Some (VObj usage)
    /\ usage !! lit name = Some x.
Proof.
  unfold counter. intros H.
  destruct (own resBody "usage") as [usage|] eqn:E; simpl in H; [|discriminate].
  apply own_Some in E as (props & -> & E).
  apply own_Some in H as (uprops & -> & H).
  eauto.
Qed.

(** A well-formed body is not one whose [usage] is missing. *)
Lemma well_formed_usage resBody content :
  well_formed resBody content -> ~ usage_missing resBody.
Proof.
  intros [_ (p & _ & _ & Hp & _)] Hmissing.
  apply counter_Some in Hp as (props & usage & -> & Husage & _).
  unfold usage_missing, own in Hmissing. rewrite Husage in Hmissing.
  by destruct Hmissing.
Qed.

End UpstreamFacts.

(** ** The outbound call *)

Module OutboundFacts.
Import Outbound.

(** Every settled call either returns or throws, and not both. *)
Lemma returns_or_throws r :
  (exists status resBody, returns r status resBody) \/ (exists msg, throws r msg).
Proof.
  destruct r as [[status [resBody | msg]] | msg].
  - left. eexists _, _. constructor.
  - right. eexists. constructor.
  - right. eexists. constructor.
Qed.

Lemma returns_not_throws r status resBody msg :
  returns r status resBody -> ~ throws r msg.
Proof. intros Hr Ht. destruct Hr. inversion Ht. Qed.

Lemma returns_deliverable r status resBody :
  returns r status resBody ->
  Fetch.deliverable r = true ->
  200 <= status <= 599 /\ null_body_status status = false.
Proof.
  intros Hr. destruct Hr as [status resBody]. simpl.
  rewrite !andb_true_iff, !Z.leb_le.
  destruct (null_body_status status); [intros [_ [=]] | intros [[? ?] _]].
  split; [lia | done].
Qed.

End OutboundFacts.

(** ** The proxy endpoint *)

Module RouteSpec.
Import Route Upstream UpstreamFacts Outbound OutboundFacts Contract.

Lemma Response_new_accepts {St} body status headers (st : St) :
  200 <= status <= 599 ->
  null_body_status status = false ->
  Response.new body (VNum status) headers st
  = (st, Normal {| Response.status := status; Response.headers := headers;
                   Response.body := body |}).
Proof.
  intros Hrange Hnull. unfold Response.new, Response.to_unsigned_short. simpl.
  rewrite Z.mod_small by lia.
  replace ((200 <=? status) && (status <=? 599)) with true
    by (symmetry; apply andb_true_iff; split; apply Z.leb_le; lia).
  simpl. by rewrite Hnull.
Qed.

(** The catch block on an error of the platform, which has no
    [statusCode]: the string ["500"] is passed on. *)
Lemma GET_catch_plain msg out :
  GET_catch (Error.plain msg) out
  = (out ++ [LogThrown msg VUndefined VUndefined], Normal (failure 500)).
Proof. reflexivity. Qed.

(** The catch block on the error made at the status check. *)
Lemma GET_catch_unsuccessful status resBody out :
  200 <= status <= 599 ->
  null_body_status status = false ->
  GET_catch (unsuccessful status resBody) out
  = (out ++ [LogThrown (lit "Create chat completion request was unsuccessful.")
                       (VNum status) resBody],
     Normal (failure status)).
Proof.
  intros Hrange Hnull. unfold GET_catch.
  erewrite bind_normal by reflexivity.
  unfold unsuccessful, or_else, truthy; simpl.
  replace (status =? 0) with false by (symmetry; apply Z.eqb_neq; lia).
  simpl. by apply Response_new_accepts.
Qed.

Lemma returns_call key fetch status resBody :
  returns (call key fetch) status resBody ->
  fetch createChatCompletionEndpointURL (request key)
  = Fetch.Resolves {| Fetch.status := status; Fetch.payload := Fetch.Json resBody |}.
Proof. unfold call. by inversion 1. Qed.

Lemma GET_try_throws_plain key fetch msg out :
  GET_try key fetch [] = (out, Throw (Error.plain msg)) ->
  invoke key fetch
  = (out ++ [LogThrown msg VUndefined VUndefined], Normal (failure 500)).
Proof.
  intros Htry. unfold invoke, GET.
  erewrite try_catch_throw by exact Htry. apply GET_catch_plain.
Qed.

(** C1.  When the outbound call returns status 200 with a well-formed
    body, the handler returns status 200 with the JSON body
    [{ completion: t }], where [t] is [choices[0].message.content] with
    the surrounding white space trimmed. *)
Theorem GET_success key fetch resBody content :
  returns (call key fetch) 200 resBody ->
  well_formed resBody content ->
  returned key fetch = Some (success (trim content)).
Proof.
  intros Hout [Hcontent (p & c & t & Hp & Hc & Ht)].
  apply has_content_inv in Hcontent as (props & choice & rest & message & -> & ? & ? & ?).
  apply counter_Some in Hp as (props1 & usage & [= <-] & Husage & Hp).
  apply counter_Some in Hc as (? & ? & [= <-] & Husage' & Hc).
  apply counter_Some in Ht as (? & ? & [= <-] & Husage'' & Ht).
  rewrite Husage in Husage', Husage''.
  injection Husage' as <-. injection Husage'' as <-.
  apply returns_call in Hout.
  unfold returned, invoke, GET.
  erewrite try_catch_normal; [reflexivity|].
  unfold GET_try. rewrite Hout.
  repeat step. reflexivity.
Qed.

Lemma GET_success_witness :
  let resBody :=
    obj [("choices", VArr [obj [("message", obj [("content", VString "  Hi there!  ")])]]);
         ("usage", obj [("prompt_tokens", VNum 10); ("completion_tokens", VNum 5);
                        ("total_tokens", VNum 15)])] in
  let fetch := fun (_ : string) (_ : Request.init) =>
    Fetch.Resolves {| Fetch.status := 200; Fetch.payload := Fetch.Json resBody |} in
  returns (call (Some (lit "sk-test")) fetch) 200 resBody
  /\ well_formed resBody (lit "  Hi there!  ")
  /\ returned (Some (lit "sk-test")) fetch = Some (success (lit "Hi there!")).
Proof.
  intros resBody fetch.
  assert (Hout : returns (call (Some (lit "sk-test")) fetch) 200 resBody) by constructor.
  assert (Hwf : well_formed resBody (lit "  Hi there!  ")).
  { split; [reflexivity|]. exists 10, 5, 15. repeat split; reflexivity. }
  split; [exact Hout|]. split; [exact Hwf|].
  exact (GET_success (Some (lit "sk-test")) fetch resBody (lit "  Hi there!  ") Hout Hwf).
Defined.

(** C2, as stated, fails: [fetch] also resolves with a status such as
    999, which no response can carry.  The catch block logs the error
    line, the constructor throws in its turn, and the handler returns no
    response, so none with status 999. *)
Lemma GET_status_999_no_response :
  let resBody := obj [("error", VString "Request denied")] in
  let fetch := fun (_ : string) (_ : Request.init) =>
    Fetch.Resolves {| Fetch.status := 999; Fetch.payload := Fetch.Json resBody |} in
  returns (call None fetch) 999 resBody
  /\ 999 <> 200
  /\ returned None fetch = None
  /\ returned None fetch <> Some (failure 999).
Proof.
  intros resBody fetch. split; [constructor|]. split; [lia|].
  assert (Hnone : returned None fetch = None) by reflexivity.
  split; [exact Hnone|]. rewrite Hnone. discriminate.
Qed.

(** C2, amended.  When the outbound call returns a status [S] other
    than 200 that a response with a body can carry, that is from 201 to
    599 and none of 204, 205 and 304, the handler returns status [S]
    with the body [{ error: { message: "An error has occurred" } }]; the
    upstream body reaches the console and not the response. *)
Theorem GET_upstream_rejection key fetch S resBody :
  returns (call key fetch) S resBody ->
  S <> 200 ->
  200 <= S <= 599 ->
  null_body_status S = false ->
  invoke key fetch
  = ([LogThrown (lit "Create chat completion request was unsuccessful.")
                (VNum S) resBody],
     Normal (failure S)).
Proof.
  intros Hout Hstatus Hrange Hnull.
  assert (GET_try key fetch [] = ([], Throw (unsuccessful S resBody))) as Htry.
  { unfold GET_try. rewrite (returns_call _ _ _ _ Hout).
    do 2 erewrite bind_normal by reflexivity.
    apply bind_throw. cbn [Fetch.status]. by case_decide. }
  unfold invoke, GET. erewrite try_catch_throw by exact Htry.
  by rewrite GET_catch_unsuccessful.
Qed.

Lemma GET_upstream_rejection_witness :
  let resBody := obj [("error", VString "rate limited")] in
  let fetch := fun (_ : string) (_ : Request.init) =>
    Fetch.Resolves {| Fetch.status := 429; Fetch.payload := Fetch.Json resBody |} in
  returns (call (Some (lit "sk-test")) fetch) 429 resBody
  /\ 429 <> 200
  /\ 200 <= 429 <= 599
  /\ null_body_status 429 = false
  /\ invoke (Some (lit "sk-test")) fetch
     = ([LogThrown (lit "Create chat completion request was unsuccessful.")
                   (VNum 429) resBody],
        Normal (failure 429)).
Proof.
  intros resBody fetch.
  assert (Hout : returns (call (Some (lit "sk-test")) fetch) 429 resBody) by constructor.
  assert (Hstatus : 429 <> 200) by lia.
  assert (Hrange : 200 <= 429 <= 599) by lia.
  assert (Hnull : null_body_status 429 = false) by reflexivity.
  split; [exact Hout|]. split; [exact Hstatus|]. split; [exact Hrange|].
  split; [exact Hnull|].
  exact (GET_upstream_rejection (Some (lit "sk-test")) fetch 429 resBody
           Hout Hstatus Hrange Hnull).
Defined.

(** C3.  When the outbound call itself throws, by a network error or
    while the response is parsed, no status reaches the catch block: the
    handler passes the string ["500"], and the response it returns has
    the numeric status 500 and the generic error body. *)
Theorem GET_outbound_throws key fetch msg :
  throws (call key fetch) msg ->
  invoke key fetch = ([LogThrown msg VUndefined VUndefined], Normal (failure 500)).
Proof.
  intros Hthrows.
  apply (GET_try_throws_plain key fetch msg []).
  unfold GET_try. fold (call key fetch).
  inversion Hthrows as [msg' Hout | status msg' Hout]; subst msg'.
  - by apply bind_throw.
  - erewrite bind_normal by reflexivity. by apply bind_throw.
Qed.

Lemma GET_outbound_throws_witness :
  let fetch := fun (_ : string) (_ : Request.init) => Fetch.Rejects (lit "fetch failed") in
  throws (call None fetch) (lit "fetch failed")
  /\ invoke None fetch
     = ([LogThrown (lit "fetch failed") VUndefined VUndefined], Normal (failure 500)).
Proof.
  intros fetch.
  assert (Hthrows : throws (call None fetch) (lit "fetch failed")) by constructor.
  split; [exact Hthrows|].
  exact (GET_outbound_throws None fetch (lit "fetch failed") Hthrows).
Defined.

(** A response that the [try] block returns carries the trimmed
    [choices[0].message.content] of an upstream answer with status 200. *)
Lemma GET_try_inv key fetch out r :
  GET_try key fetch [] = (out, Normal r) ->
  exists resBody choices choice message content,
    returns (call key fetch) 200 resBody
    /\ get resBody (lit "choices") = Normal choices
    /\ get choices (lit "0") = Normal choice
    /\ get choice (lit "message") = Normal message
    /\ get message (lit "content") = Normal (VStr content)
    /\ r = success (trim content).
Proof.
  unfold GET_try. fold (call key fetch). intros H.
  apply bind_inv in H as (st1 & res & Hawait & H).
  apply bind_inv in H as (st2 & resBody & Hjson & H).
  apply bind_inv in H as (st3 & [] & Hcheck & H).
  apply bind_inv in H as (st4 & choices & Hchoices & H).
  apply bind_inv in H as (st5 & choice & Hchoice & H).
  apply bind_inv in H as (st6 & message & Hmessage & H).
  apply bind_inv in H as (st7 & content & Hcontent & H).
  apply bind_inv in H as (st8 & completionText & Htrim & H).
  apply bind_inv in H as (st9 & usage & _ & H).
  apply bind_inv in H as (? & p & _ & H).
  apply bind_inv in H as (? & p' & _ & H).
  apply bind_inv in H as (? & c & _ & H).
  apply bind_inv in H as (? & c' & _ & H).
  apply bind_inv in H as (? & t & _ & H).
  apply bind_inv in H as (? & t' & _ & H).
  apply bind_inv in H as (st13 & [] & _ & H).
  apply prop_inv in Hchoices as [-> Hchoices].
  apply prop_inv in Hchoice as [-> Hchoice].
  apply prop_inv in Hmessage as [-> Hmessage].
  apply prop_inv in Hcontent as [-> Hcontent].
  destruct (call key fetch) as [[status payload]|msg]; [|discriminate].
  injection Hawait as <- <-.
  unfold Fetch.json in Hjson. cbn in Hjson. destruct payload as [v|]; [|discriminate].
  injection Hjson as <- <-.
  cbn [Fetch.status] in Hcheck. case_decide; [discriminate|].
  assert (status = 200) as -> by (destruct (decide (status = 200)); done).
  destruct content; try discriminate.
  injection Htrim as <- <-.
  injection H as <- <-.
  eexists _, _, _, _, _. repeat split; eauto.
Qed.

Lemma Response_new_body {St} body status headers (st st' : St) r :
  Response.new body status headers st = (st', Normal r) -> Response.body r = body.
Proof.
  unfold Response.new.
  repeat match goal with |- context [if ?b then _ else _] => destruct b end;
    try discriminate.
  by intros [= _ <-].
Qed.

(** Where a returned body comes from: it is the generic error body, or
    it holds the trimmed text of the upstream answer and nothing else. *)
Lemma GET_body_origin key fetch r :
  returned key fetch = Some r ->
  Response.body r = Response.body (failure 500)
  \/ exists resBody content,
       returns (call key fetch) 200 resBody
       /\ Response.body r = obj [("completion", VStr (trim content))].
Proof.
  unfold returned, invoke, GET, try_catch.
  destruct (GET_try key fetch []) as [out [r'|e]] eqn:Htry.
  - intros [= <-]. right.
    apply GET_try_inv in Htry as (resBody & ? & ? & ? & content & ? & _ & _ & _ & _ & ->).
    by exists resBody, content.
  - unfold GET_catch. intros Hcatch. left.
    destruct (_ ≫= _) as [out' [r'|?]] eqn:Hnew in Hcatch; [|discriminate].
    injection Hcatch as ->.
    apply bind_inv in Hnew as (? & [] & _ & Hnew).
    by apply Response_new_body in Hnew.
Qed.

(** C4.  The credential does not interfere with what the handler gives
    back: two invocations that differ in the secret and see the same
    settled outbound call return the same response, body included, and
    write the same console lines. *)
Theorem GET_secret_noninterference key1 key2 fetch1 fetch2 :
  call key1 fetch1 = call key2 fetch2 ->
  invoke key1 fetch1 = invoke key2 fetch2.
Proof.
  intros Hsame. unfold invoke, GET, try_catch, GET_try.
  fold (call key1 fetch1). fold (call key2 fetch2).
  by rewrite Hsame.
Qed.

Lemma GET_secret_noninterference_witness :
  let fetch := fun (_ : string) (_ : Request.init) =>
    Fetch.Resolves
      {| Fetch.status := 401;
         Fetch.payload := Fetch.Json (obj [("error", VString "Incorrect API key provided")]) |} in
  request (Some (lit "sk-first")) <> request (Some (lit "sk-second"))
  /\ call (Some (lit "sk-first")) fetch = call (Some (lit "sk-second")) fetch
  /\ invoke (Some (lit "sk-first")) fetch = invoke (Some (lit "sk-second")) fetch.
Proof.
  intros fetch.
  split; [discriminate|]. split; [reflexivity|].
  exact (GET_secret_noninterference (Some (lit "sk-first")) (Some (lit "sk-second"))
           fetch fetch eq_refl).
Defined.

(** C9, as stated, fails: with a [usage] object that has none of the
    three counters the reads yield [undefined], nothing is thrown, and
    the completion is returned with status 200. *)
Lemma GET_usage_without_counters :
  let resBody :=
    obj [("choices", VArr [obj [("message", obj [("content", VString "Hi")])]]);
         ("usage", obj [])] in
  let fetch := fun (_ : string) (_ : Request.init) =>
    Fetch.Resolves {| Fetch.status := 200; Fetch.payload := Fetch.Json resBody |} in
  returns (call None fetch) 200 resBody
  /\ has_content resBody (lit "Hi")
  /\ counters_absent resBody
  /\ returned None fetch = Some (success (lit "Hi"))
  /\ returned None fetch <> Some (failure 500).
Proof.
  intros resBody fetch. split; [constructor|].
  vm_compute. repeat split; discriminate.
Qed.

(** C9, amended.  When the outbound call returns status 200 with a body
    in which [choices[0].message.content] is a string but the [usage]
    member itself is missing or [null], reading the first counter for
    the log line throws inside the [try] block, and the handler returns
    status 500 with the generic error body instead of the completion. *)
Theorem GET_usage_missing key fetch resBody content :
  returns (call key fetch) 200 resBody ->
  has_content resBody content ->
  usage_missing resBody ->
  returned key fetch = Some (failure 500).
Proof.
  intros Hout Hcontent Husage.
  apply has_content_inv in Hcontent as (props & choice & rest & message & -> & ? & ? & ?).
  unfold usage_missing, own in Husage.
  apply returns_call in Hout.
  assert (exists usage,
            GET_try key fetch []
            = ([], Throw (cannot_read usage (lit "prompt_tokens")))) as [usage Htry].
  { unfold GET_try. rewrite Hout.
    destruct Husage as [Hnone | Hnull].
    - exists VUndefined. by repeat step.
    - exists VNull. by repeat step. }
  unfold returned. by erewrite GET_try_throws_plain by exact Htry.
Qed.

Lemma GET_usage_missing_witness :
  let resBody :=
    obj [("choices", VArr [obj [("message", obj [("content", VString "Hi")])]])] in
  let fetch := fun (_ : string) (_ : Request.init) =>
    Fetch.Resolves {| Fetch.status := 200; Fetch.payload := Fetch.Json resBody |} in
  returns (call None fetch) 200 resBody
  /\ has_content resBody (lit "Hi")
  /\ usage_missing resBody
  /\ returned None fetch = Some (failure 500).
Proof.
  intros resBody fetch.
  assert (Hout : returns (call None fetch) 200 resBody) by constructor.
  assert (Hcontent : has_content resBody (lit "Hi")) by reflexivity.
  assert (Husage : usage_missing resBody) by (left; reflexivity).
  split; [exact Hout|]. split; [exact Hcontent|]. split; [exact Husage|].
  exact (GET_usage_missing None fetch resBody (lit "Hi") Hout Hcontent Husage).
Defined.

End RouteSpec.

(** ** The client view *)

Module PageSpec.
Import Page Call.

(** Scenarios C and D of the specification. *)
Example scenario_C :
  after
    (Fetch.Resolves
       {| Fetch.status := 200;
          Fetch.payload :=
            Fetch.Json (obj [("completion",
                              VStr (lit "A" ++ [10%N] ++ lit "B" ++ [10%N] ++ lit "C"))]) |})
    initial
  = {| reply := VStr (lit "A" ++ [10%N] ++ lit "B" ++ [10%N] ++ lit "C");
       loadingStatus := false; defaultPrevented := true |}.
Proof. vm_compute. reflexivity. Qed.

Example scenario_D :
  after (Fetch.Rejects (lit "Failed to fetch")) initial
  = {| reply := VString "An error has occurred";
       loadingStatus := false; defaultPrevented := true |}.
Proof. vm_compute. reflexivity. Qed.

(** Between the click and the settling of the call the loading flag is
    up and the reply is untouched. *)
Lemma onSubmit_start_loading st :
  onSubmit_start st
  = ({| reply := reply st; loadingStatus := true; defaultPrevented := true |}, Normal tt).
Proof. reflexivity. Qed.

Lemma onSubmit_caught fetch st e :
  onSubmit_try fetch (Page.make (reply st) true true)
    = (Page.make (reply st) true true, Throw e) ->
  onSubmit fetch st = (settled_with fallback, Normal tt).
Proof.
  intros Htry.
  unfold onSubmit, onSubmit_start, mbind, M_bind, bind, try_catch. simpl.
  by rewrite Htry.
Qed.

Lemma onSubmit_set fetch st text :
  onSubmit_try fetch (Page.make (reply st) true true)
    = (Page.make text true true, Normal tt) ->
  onSubmit fetch st = (settled_with text, Normal tt).
Proof.
  intros Htry.
  unfold onSubmit, onSubmit_start, mbind, M_bind, bind, try_catch. simpl.
  by rewrite Htry.
Qed.

(** C5.  When the call to the proxy endpoint fails to complete, the
    handler sets the reply to the fixed string "An error has occurred". *)
Theorem onSubmit_failure settled st :
  fails settled ->
  after settled st = settled_with (VString "An error has occurred").
Proof.
  intros Hfails. unfold after.
  destruct Hfails as [msg | status msg | status];
    [| | destruct (decide (status = 200))].
  - rewrite (onSubmit_caught _ _ (Error.plain msg)); [reflexivity|].
    by apply bind_throw.
  - rewrite (onSubmit_caught _ _ (Error.plain msg)); [reflexivity|].
    unfold onSubmit_try. erewrite bind_normal by reflexivity. by apply bind_throw.
  - rewrite (onSubmit_caught _ _ (cannot_read VNull (lit "completion"))); [reflexivity|].
    unfold onSubmit_try. do 2 erewrite bind_normal by reflexivity.
    apply bind_throw. simpl. by case_decide.
  - rewrite (onSubmit_caught _ _ (cannot_read VNull (lit "error"))); [reflexivity|].
    unfold onSubmit_try. do 2 erewrite bind_normal by reflexivity.
    apply bind_throw. simpl. case_decide; [done|]. by apply bind_throw.
Qed.

Lemma onSubmit_failure_witness :
  fails (Fetch.Rejects (lit "Failed to fetch"))
  /\ after (Fetch.Rejects (lit "Failed to fetch")) initial
     = settled_with (VString "An error has occurred").
Proof.
  assert (Hfails : fails (Fetch.Rejects (lit "Failed to fetch"))) by constructor.
  split; [exact Hfails|].
  exact (onSubmit_failure (Fetch.Rejects (lit "Failed to fetch")) initial Hfails).
Defined.

(** C6.  When the proxy endpoint responds with status 200 and a JSON
    body that has a [completion] field, the reply is set to exactly the
    value of that field, line breaks included. *)
Theorem onSubmit_completion body text st :
  own body "completion" = Some text ->
  after (Fetch.Resolves {| Fetch.status := 200; Fetch.payload := Fetch.Json body |}) st
  = settled_with text.
Proof.
  intros Hown. destruct body; try discriminate. unfold own in Hown.
  unfold after. erewrite onSubmit_set; [reflexivity|].
  unfold onSubmit_try.
  do 2 erewrite bind_normal by reflexivity.
  erewrite (bind_normal _ _ _ _ text); cycle 1.
  { cbn [Fetch.status]. case_decide; [|done]. by apply prop_own. }
  reflexivity.
Qed.

Lemma onSubmit_completion_witness :
  let text := VStr (lit "A" ++ [10%N] ++ lit "B" ++ [10%N] ++ lit "C") in
  let body := obj [("completion", text)] in
  own body "completion" = Some text
  /\ after (Fetch.Resolves {| Fetch.status := 200; Fetch.payload := Fetch.Json body |})
           initial
     = settled_with text.
Proof.
  intros text body.
  assert (Hown : own body "completion" = Some text) by reflexivity.
  split; [exact Hown|].
  exact (onSubmit_completion body text initial Hown).
Defined.

(** C7.  When the proxy endpoint responds with a status other than 200
    and a JSON body, the reply is set to the nested error message field
    [body.error.message] of that body. *)
Theorem onSubmit_error_message status body error text st :
  status <> 200 ->
  own body "error" = Some error ->
  own error "message" = Some text ->
  after (Fetch.Resolves {| Fetch.status := status; Fetch.payload := Fetch.Json body |}) st
  = settled_with text.
Proof.
  intros Hstatus Herror Hmessage.
  destruct body; try discriminate. destruct error; try discriminate.
  unfold own in Herror, Hmessage.
  unfold after. erewrite onSubmit_set; [reflexivity|].
  unfold onSubmit_try.
  do 2 erewrite bind_normal by reflexivity.
  erewrite (bind_normal _ _ _ _ text); cycle 1.
  { cbn [Fetch.status]. case_decide; [done|].
    erewrite bind_normal by (eapply prop_own; exact Herror).
    eapply prop_own; exact Hmessage. }
  reflexivity.
Qed.

Lemma onSubmit_error_message_witness :
  let error := obj [("message", VString "An error has occurred")] in
  let body := obj [("error", error)] in
  429 <> 200
  /\ own body "error" = Some error
  /\ own error "message" = Some (VString "An error has occurred")
  /\ after (Fetch.Resolves {| Fetch.status := 429; Fetch.payload := Fetch.Json body |})
           initial
     = settled_with (VString "An error has occurred").
Proof.
  intros error body.
  assert (Hstatus : 429 <> 200) by lia.
  assert (Herror : own body "error" = Some error) by reflexivity.
  assert (Hmessage : own error "message" = Some (VString "An error has occurred"))
    by reflexivity.
  split; [exact Hstatus|]. split; [exact Herror|]. split; [exact Hmessage|].
  exact (onSubmit_error_message 429 body error _ initial Hstatus Herror Hmessage).
Defined.

(** C8.  Whatever the call to the proxy endpoint settles to, a success,
    an upstream error or a failed call, the handler runs to its end
    without throwing and leaves [loadingStatus] false. *)
Theorem onSubmit_loading_false fetch st :
  exists st', onSubmit fetch st = (st', Normal tt) /\ loadingStatus st' = false.
Proof.
  unfold onSubmit, onSubmit_start, mbind, M_bind, bind, try_catch. simpl.
  destruct (onSubmit_try _ _) as [st1 [[]|e]]; simpl; eauto.
Qed.

Lemma error_message_throws body (st : state) :
  error_missing body ->
  exists e, (error ← prop body "error"; prop error "message") st = (st, Throw e).
Proof.
  intros [Hnone | Hnull].
  - destruct body; try discriminate; try (eexists; reflexivity).
    unfold own in Hnone. eexists.
    erewrite bind_normal by (by apply prop_missing). reflexivity.
  - destruct body; try discriminate.
    unfold own in Hnull. eexists.
    erewrite bind_normal by (by apply prop_own). reflexivity.
Qed.

(** C10, as stated, fails: when [body.error] is an object without a
    [message] field, no read throws and the reply becomes [undefined]
    rather than the fallback string. *)
Lemma onSubmit_error_without_message :
  let body := obj [("error", obj [])] in
  let settled := Fetch.Resolves {| Fetch.status := 500; Fetch.payload := Fetch.Json body |} in
  own body "error" = Some (obj [])
  /\ own (obj []) "message" = None
  /\ after settled initial = settled_with VUndefined
  /\ reply (after settled initial) <> VString "An error has occurred".
Proof. vm_compute. repeat split; discriminate. Qed.

(** C10, amended.  When the proxy endpoint responds with a status other
    than 200 and a JSON body whose [error] member is missing or [null],
    the failed read is caught: the handler runs to its end, the reply is
    the fallback string "An error has occurred" and [loadingStatus] ends
    false. *)
Theorem onSubmit_error_missing status body st :
  status <> 200 ->
  error_missing body ->
  onSubmit (fun _ => Fetch.Resolves {| Fetch.status := status;
                                       Fetch.payload := Fetch.Json body |}) st
  = ({| reply := VString "An error has occurred"; loadingStatus := false;
        defaultPrevented := true |}, Normal tt).
Proof.
  intros Hstatus Hmissing.
  destruct (error_message_throws body (Page.make (reply st) true true) Hmissing)
    as [e Hthrow].
  apply (onSubmit_caught _ _ e).
  unfold onSubmit_try. do 2 erewrite bind_normal by reflexivity.
  apply bind_throw. cbn [Fetch.status]. by case_decide.
Qed.

Lemma onSubmit_error_missing_witness :
  let body := obj [("detail", VString "Bad Gateway")] in
  502 <> 200
  /\ error_missing body
  /\ onSubmit (fun _ => Fetch.Resolves {| Fetch.status := 502;
                                          Fetch.payload := Fetch.Json body |})
              initial
     = ({| reply := VString "An error has occurred"; loadingStatus := false;
           defaultPrevented := true |}, Normal tt).
Proof.
  intros body.
  assert (Hstatus : 502 <> 200) by lia.
  assert (Hmissing : error_missing body) by (left; reflexivity).
  split; [exact Hstatus|]. split; [exact Hmissing|].
  exact (onSubmit_error_missing 502 body initial Hstatus Hmissing).
Defined.

End PageSpec.

(** ** More on the proxy endpoint *)

Module RouteFacts.
Import Route Upstream UpstreamFacts Outbound OutboundFacts Contract Trimmed TrimFacts.

Lemma Normal_inj {A} (a b : A) : Normal a = Normal b -> a = b.
Proof.
  intros H.
  exact (f_equal (fun c => match c with Normal x => x | Throw _ => a end) H).
Qed.

Lemma bind_lift {St A B} (c : completion A) (k : A -> M St B) (st : St) :
  (lift c ≫= k) st
  = match c with Normal a => k a st | Throw e => (st, Throw e) end.
Proof. by destruct c. Qed.

(** A read throws exactly on [undefined] and [null], and what it throws
    is an error of the platform. *)
Lemma get_throw base key e :
  get base key = Throw e -> e = Error.plain (Error.message e).
Proof.
  destruct base; simpl; try discriminate;
    repeat match goal with |- context [match ?x with _ => _ end] => destruct x end;
    try discriminate; by intros [= <-].
Qed.

Lemma get_nullish base key :
  nullish base = true -> get base key = Throw (cannot_read base key).
Proof. by destruct base. Qed.

Lemma get_not_nullish base key :
  nullish base = false -> exists v, get base key = Normal v.
Proof.
  destruct base; simpl; try discriminate; intros _;
    repeat match goal with |- context [match ?x with _ => _ end] => destruct x end;
    eauto.
Qed.

Lemma template_hole_cases {St} v (st : St) :
  (to_string_throws v = false /\ template_hole v st = (st, Normal v))
  \/ (to_string_throws v = true
      /\ template_hole v st
         = (st, Throw (Error.plain (lit "Cannot convert object to primitive value")))).
Proof. unfold template_hole. destruct (to_string_throws v); auto. Qed.

Lemma call_trim_cases {St} path base (st : St) :
  (exists s, base = VStr s /\ call_trim path base st = (st, Normal (trim s)))
  \/ (exists msg, (forall s, base <> VStr s)
                  /\ call_trim path base st = (st, Throw (Error.plain msg))).
Proof.
  destruct base; simpl; eauto; right; eexists; (split; [done | reflexivity]).
Qed.

(** The [try] block ends in one of the three ways of [Try.outcome]. *)
Lemma GET_try_outcome key fetch out c :
  GET_try key fetch [] = (out, c) -> Try.outcome key fetch out c.
Proof.
  unfold GET_try. fold (call key fetch).
  destruct (call key fetch) as [[status [resBody|msg]]|msg] eqn:Hcall.
  - erewrite bind_normal by reflexivity.
    erewrite bind_normal by reflexivity.
    cbn [Fetch.status]. case_decide as Hstatus.
    + erewrite bind_throw by reflexivity. intros [= <- <-].
      eapply Try.try_throws_unsuccessful; [rewrite Hcall; constructor | done..].
    + assert (status = 200) as -> by (destruct (decide (status = 200)); done).
      erewrite bind_normal by reflexivity.
      unfold prop. rewrite bind_lift.
      destruct (get resBody (lit "choices")) as [choices|e] eqn:E1;
        [|intros [= <- <-]; rewrite (get_throw _ _ _ E1); by econstructor 2].
      rewrite bind_lift.
      destruct (get choices (lit "0")) as [choice|e] eqn:E2;
        [|intros [= <- <-]; rewrite (get_throw _ _ _ E2); by econstructor 2].
      rewrite bind_lift.
      destruct (get choice (lit "message")) as [message|e] eqn:E3;
        [|intros [= <- <-]; rewrite (get_throw _ _ _ E3); by econstructor 2].
      rewrite bind_lift.
      destruct (get message (lit "content")) as [content|e] eqn:E4;
        [|intros [= <- <-]; rewrite (get_throw _ _ _ E4); by econstructor 2].
      destruct (call_trim_cases content_path content ([] : console))
        as [(s & -> & Htrim) | (msg & _ & Htrim)].
      2:{ erewrite bind_throw by exact Htrim. intros [= <- <-]. by econstructor 2. }
      erewrite bind_normal by exact Htrim.
      rewrite bind_lift.
      destruct (get resBody (lit "usage")) as [usage|e] eqn:E5;
        [|intros [= <- <-]; rewrite (get_throw _ _ _ E5); by econstructor 2].
      rewrite bind_lift.
      destruct (get usage (lit "prompt_tokens")) as [p|e] eqn:E6;
        [|intros [= <- <-]; rewrite (get_throw _ _ _ E6); by econstructor 2].
      destruct (template_hole_cases p ([] : console)) as [[Hp Hhole] | [_ Hhole]].
      2:{ erewrite bind_throw by exact Hhole. intros [= <- <-]. by econstructor 2. }
      erewrite bind_normal by exact Hhole. clear Hhole.
      rewrite bind_lift.
      destruct (get usage (lit "completion_tokens")) as [ct|e] eqn:E7;
        [|intros [= <- <-]; rewrite (get_throw _ _ _ E7); by econstructor 2].
      destruct (template_hole_cases ct ([] : console)) as [[Hct Hhole] | [_ Hhole]].
      2:{ erewrite bind_throw by exact Hhole. intros [= <- <-]. by econstructor 2. }
      erewrite bind_normal by exact Hhole. clear Hhole.
      rewrite bind_lift.
      destruct (get usage (lit "total_tokens")) as [t|e] eqn:E8;
        [|intros [= <- <-]; rewrite (get_throw _ _ _ E8); by econstructor 2].
      destruct (template_hole_cases t ([] : console)) as [[Ht Hhole] | [_ Hhole]].
      2:{ erewrite bind_throw by exact Hhole. intros [= <- <-]. by econstructor 2. }
      erewrite bind_normal by exact Hhole. clear Hhole.
      erewrite bind_normal by reflexivity.
      intros [= <- <-].
      apply (Try.try_returns key fetch _ _ resBody s usage p ct t); try done.
      * rewrite Hcall. constructor.
      * unfold read_content. by rewrite E1, E2, E3.
      * destruct usage; try done; discriminate.
  - erewrite bind_normal by reflexivity.
    erewrite bind_throw by reflexivity. intros [= <- <-]. by econstructor 2.
  - erewrite bind_throw by reflexivity. intros [= <- <-]. by econstructor 2.
Qed.

(** The [try] block up to the point where the text has been trimmed. *)
Lemma GET_try_after_content key fetch resBody content :
  returns (call key fetch) 200 resBody ->
  read_content resBody = Normal (VStr content) ->
  GET_try key fetch []
  = (usage ← prop resBody "usage";
     prompt_tokens ← prop usage "prompt_tokens";
     prompt_tokens ← template_hole prompt_tokens;
     completion_tokens ← prop usage "completion_tokens";
     completion_tokens ← template_hole completion_tokens;
     total_tokens ← prop usage "total_tokens";
     total_tokens ← template_hole total_tokens;
     console_log (LogResults (trim content) prompt_tokens completion_tokens total_tokens);;
     Response.new (obj [("completion", VStr (trim content))]) (VNum 200) json_headers) [].
Proof.
  intros Hout Hcontent. unfold GET_try.
  rewrite (RouteSpec.returns_call _ _ _ _ Hout).
  do 3 erewrite bind_normal by reflexivity.
  unfold read_content in Hcontent.
  destruct (get resBody (lit "choices")) as [choices|] eqn:E1; [|discriminate].
  destruct (get choices (lit "0")) as [choice|] eqn:E2; [|discriminate].
  destruct (get choice (lit "message")) as [message|] eqn:E3; [|discriminate].
  match goal with |- _ = ?rhs => set (rest := rhs) end.
  unfold prop. rewrite bind_lift, E1, bind_lift, E2, bind_lift, E3, bind_lift, Hcontent.
  by erewrite bind_normal by reflexivity.
Qed.

Lemma returns_functional r status resBody status' resBody' :
  returns r status resBody -> returns r status' resBody' ->
  status' = status /\ resBody' = resBody.
Proof. intros H H'. destruct H. by inversion H'. Qed.

(** The [try] block when the text cannot be had. *)
Lemma GET_try_without_content key fetch resBody :
  returns (call key fetch) 200 resBody ->
  (forall content, read_content resBody <> Normal (VStr content)) ->
  exists msg, GET_try key fetch [] = ([], Throw (Error.plain msg)).
Proof.
  intros Hout Hnone.
  destruct (GET_try key fetch []) as [out c] eqn:Htry.
  destruct (GET_try_outcome _ _ _ _ Htry)
    as [resBody' content ? ? ? ? Hout' Hcontent _ _ _ _ _ _ _ _ _ _
       | msg -> ->
       | status resBody' Hout' Hstatus _ _].
  - destruct (returns_functional _ _ _ _ _ Hout Hout') as [_ ->].
    by destruct (Hnone content).
  - eauto.
  - by destruct (returns_functional _ _ _ _ _ Hout Hout') as [-> _].
Qed.

Lemma Response_new_inv {St} body status headers (st st' : St) r :
  Response.new body status headers st = (st', Normal r) ->
  st' = st
  /\ r = {| Response.status := Response.to_unsigned_short status;
            Response.headers := headers; Response.body := body |}
  /\ 200 <= Response.status r <= 599
  /\ null_body_status (Response.status r) = false.
Proof.
  unfold Response.new.
  destruct (negb _) eqn:Hrange; [discriminate|].
  destruct (null_body_status _) eqn:Hnull; [discriminate|].
  intros [= <- <-]. simpl. repeat split; try done.
  all: apply negb_false_iff, andb_true_iff in Hrange as [? ?]; lia.
Qed.


Lemma GET_catch_console error out :
  (GET_catch error out).1
  = out ++ [LogThrown (Error.message error) (Error.statusCode error) (Error.body error)].
Proof.
  unfold GET_catch. erewrite bind_normal by reflexivity.
  unfold Response.new.
  by repeat match goal with |- context [if ?b then _ else _] => destruct b end.
Qed.

Lemma GET_catch_returns error out out' r :
  GET_catch error out = (out', Normal r) ->
  r = failure (Response.status r)
  /\ 200 <= Response.status r <= 599
  /\ null_body_status (Response.status r) = false.
Proof.
  unfold GET_catch. erewrite bind_normal by reflexivity.
  intros H. apply Response_new_inv in H as (_ & -> & ? & ?). done.
Qed.

Lemma success_not_failure t status : success t <> failure status.
Proof.
  intros H. apply (f_equal Response.body) in H.
  apply (f_equal (fun v => own v "completion")) in H. discriminate.
Qed.

Lemma invoke_unfold key fetch :
  invoke key fetch
  = match GET_try key fetch [] with
    | (out, Normal r) => (out, Normal r)
    | (out, Throw e) => GET_catch e out
    end.
Proof. reflexivity. Qed.

Lemma GET_try_plain_500 key fetch msg :
  GET_try key fetch [] = ([], Throw (Error.plain msg)) ->
  invoke key fetch
  = ([LogThrown msg VUndefined VUndefined], Normal (failure 500)).
Proof. intros Htry. by rewrite invoke_unfold, Htry. Qed.

End RouteFacts.

Module RouteExtra.
Import Route Upstream UpstreamFacts Outbound OutboundFacts Contract Trimmed TrimFacts.
Import RouteFacts.

Lemma success_inj t t' : success t = success t' -> t = t'.
Proof.
  intros H. apply (f_equal Response.body) in H.
  apply (f_equal (fun v => own v "completion")) in H.
  unfold own, obj in H. simpl in H. rewrite !lookup_insert_eq in H.
  by injection H.
Qed.

(** X1.  With status 200, a string at [choices[0].message.content] and
    a [usage] member whose three counter reads give values that convert
    to a string (a missing counter reads as [undefined], which does),
    the handler writes one log line, holding the trimmed text and the
    three values read, and returns status 200 with the trimmed text as
    the completion. *)
Theorem GET_completion_logged key fetch resBody content usage p c t :
  returns (call key fetch) 200 resBody ->
  read_content resBody = Normal (VStr content) ->
  get resBody (lit "usage") = Normal usage ->
  get usage (lit "prompt_tokens") = Normal p ->
  get usage (lit "completion_tokens") = Normal c ->
  get usage (lit "total_tokens") = Normal t ->
  to_string_throws p = false ->
  to_string_throws c = false ->
  to_string_throws t = false ->
  invoke key fetch
  = ([LogResults (trim content) p c t], Normal (success (trim content))).
Proof.
  intros Hout Hcontent Husage Hp Hc Ht Hps Hcs Hts.
  rewrite invoke_unfold, (GET_try_after_content _ _ _ _ Hout Hcontent).
  unfold prop, template_hole.
  rewrite bind_lift, Husage, bind_lift, Hp.
  erewrite bind_normal by (by rewrite Hps).
  rewrite bind_lift, Hc.
  erewrite bind_normal by (by rewrite Hcs).
  rewrite bind_lift, Ht.
  erewrite bind_normal by (by rewrite Hts).
  reflexivity.
Qed.

Lemma GET_completion_logged_witness :
  let usage := obj [("prompt_tokens", VNum 10)] in
  let resBody :=
    obj [("choices", VArr [obj [("message", obj [("content", VString " Hi ")])]]);
         ("usage", usage)] in
  let fetch := fun (_ : string) (_ : Request.init) =>
    Fetch.Resolves {| Fetch.status := 200; Fetch.payload := Fetch.Json resBody |} in
  returns (call None fetch) 200 resBody
  /\ read_content resBody = Normal (VString " Hi ")
  /\ get resBody (lit "usage") = Normal usage
  /\ get usage (lit "prompt_tokens") = Normal (VNum 10)
  /\ get usage (lit "completion_tokens") = Normal VUndefined
  /\ get usage (lit "total_tokens") = Normal VUndefined
  /\ to_string_throws (VNum 10) = false
  /\ to_string_throws VUndefined = false
  /\ invoke None fetch
     = ([LogResults (trim (lit " Hi ")) (VNum 10) VUndefined VUndefined],
        Normal (success (trim (lit " Hi ")))).
Proof.
  intros usage resBody fetch.
  assert (Hout : returns (call None fetch) 200 resBody) by constructor.
  assert (Hcontent : read_content resBody = Normal (VString " Hi ")) by reflexivity.
  assert (Husage : get resBody (lit "usage") = Normal usage) by reflexivity.
  assert (Hp : get usage (lit "prompt_tokens") = Normal (VNum 10)) by reflexivity.
  assert (Hc : get usage (lit "completion_tokens") = Normal VUndefined) by reflexivity.
  assert (Ht : get usage (lit "total_tokens") = Normal VUndefined) by reflexivity.
  assert (Hps : to_string_throws (VNum 10) = false) by reflexivity.
  assert (Hus : to_string_throws VUndefined = false) by reflexivity.
  split; [exact Hout|]. split; [exact Hcontent|]. split; [exact Husage|].
  split; [exact Hp|]. split; [exact Hc|]. split; [exact Ht|].
  split; [exact Hps|]. split; [exact Hus|].
  exact (GET_completion_logged None fetch resBody (lit " Hi ") usage
           (VNum 10) VUndefined VUndefined Hout Hcontent Husage Hp Hc Ht Hps Hus Hus).
Defined.

(** X2.  A completion is returned only for an upstream answer with
    status 200: the text in the response is the trimmed string read at
    [choices[0].message.content] of that answer, and it neither starts
    nor ends with white space. *)
Theorem GET_completion_origin key fetch t :
  returned key fetch = Some (success t) ->
  exists resBody content,
    returns (call key fetch) 200 resBody
    /\ read_content resBody = Normal (VStr content)
    /\ t = trim content
    /\ starts_clean t /\ starts_clean (rev t).
Proof.
  unfold returned. rewrite invoke_unfold.
  destruct (GET_try key fetch []) as [out [r|e]] eqn:Htry.
  - intros [= ->].
    destruct (GET_try_outcome _ _ _ _ Htry)
      as [resBody content ? ? ? ? Hout Hcontent _ _ _ _ _ _ _ _ _ Hr | ? _ [=] | ? ? _ _ _ [=]].
    destruct (trim_split content) as (_ & _ & _ & _ & _ & Hstart & Hend).
    apply Normal_inj, success_inj in Hr as ->.
    exists resBody, content. done.
  - destruct (GET_catch e out) as [out' [r|e']] eqn:Hcatch; [|discriminate].
    intros [= ->]. apply GET_catch_returns in Hcatch as [Hr _].
    by destruct (success_not_failure _ _ Hr).
Qed.

Lemma GET_completion_origin_witness :
  let resBody :=
    obj [("choices", VArr [obj [("message", obj [("content", VString "  Hi there!  ")])]]);
         ("usage", obj [])] in
  let fetch := fun (_ : string) (_ : Request.init) =>
    Fetch.Resolves {| Fetch.status := 200; Fetch.payload := Fetch.Json resBody |} in
  returned None fetch = Some (success (lit "Hi there!"))
  /\ exists resBody' content,
       returns (call None fetch) 200 resBody'
       /\ read_content resBody' = Normal (VStr content)
       /\ lit "Hi there!" = trim content
       /\ starts_clean (lit "Hi there!") /\ starts_clean (rev (lit "Hi there!")).
Proof.
  intros resBody fetch.
  assert (Hret : returned None fetch = Some (success (lit "Hi there!"))) by reflexivity.
  split; [exact Hret|].
  exact (GET_completion_origin None fetch (lit "Hi there!") Hret).
Defined.

(** X3.  With status 200 but no string to be read at
    [choices[0].message.content] (no [choices], an empty [choices], a
    [content] that is [null] or a number), the [try] block throws before
    anything is logged and the handler returns status 500 with the
    generic error body. *)
Theorem GET_content_unusable key fetch resBody :
  returns (call key fetch) 200 resBody ->
  (forall content, read_content resBody <> Normal (VStr content)) ->
  exists msg,
    invoke key fetch = ([LogThrown msg VUndefined VUndefined], Normal (failure 500)).
Proof.
  intros Hout Hnone.
  destruct (GET_try_without_content _ _ _ Hout Hnone) as [msg Htry].
  exists msg. rewrite invoke_unfold, Htry. apply RouteSpec.GET_catch_plain.
Qed.

Lemma GET_content_unusable_witness :
  let resBody :=
    obj [("choices", VArr [obj [("message", obj [("content", VNull)])]]);
         ("usage", obj [("prompt_tokens", VNum 10); ("completion_tokens", VNum 0);
                        ("total_tokens", VNum 10)])] in
  let fetch := fun (_ : string) (_ : Request.init) =>
    Fetch.Resolves {| Fetch.status := 200; Fetch.payload := Fetch.Json resBody |} in
  returns (call None fetch) 200 resBody
  /\ (forall content, read_content resBody <> Normal (VStr content))
  /\ exists msg,
       invoke None fetch = ([LogThrown msg VUndefined VUndefined], Normal (failure 500)).
Proof.
  intros resBody fetch.
  assert (Hout : returns (call None fetch) 200 resBody) by constructor.
  assert (Hnone : forall content, read_content resBody <> Normal (VStr content))
    by (intros content; discriminate).
  split; [exact Hout|]. split; [exact Hnone|].
  exact (GET_content_unusable None fetch resBody Hout Hnone).
Defined.

(** X13.  With status 200 and a string at
    [choices[0].message.content], when one of the three counters read
    from [usage] is a value whose conversion to a string throws (an
    object with its own [toString] member, or an array holding one),
    the template literal of the log line throws inside the [try] block:
    only the error line is logged and the handler returns status 500
    with the generic error body. *)
Theorem GET_counter_unprintable key fetch resBody content usage name v :
  returns (call key fetch) 200 resBody ->
  read_content resBody = Normal (VStr content) ->
  get resBody (lit "usage") = Normal usage ->
  In name counters ->
  get usage (lit name) = Normal v ->
  to_string_throws v = true ->
  invoke key fetch
  = ([LogThrown (lit "Cannot convert object to primitive value") VUndefined VUndefined],
     Normal (failure 500)).
Proof.
  intros Hout Hcontent Husage Hname Hv Hthrows.
  assert (nullish usage = false) as Hnullish by (by destruct usage).
  destruct (get_not_nullish usage (lit "prompt_tokens") Hnullish) as [p Hp].
  destruct (get_not_nullish usage (lit "completion_tokens") Hnullish) as [c Hc].
  destruct (get_not_nullish usage (lit "total_tokens") Hnullish) as [t Ht].
  assert (to_string_throws p = true
          \/ to_string_throws c = true \/ to_string_throws t = true) as Hone.
  { destruct Hname as [<- | [<- | [<- | []]]]; rewrite Hv in *.
    - injection Hp as <-. auto.
    - injection Hc as <-. auto.
    - injection Ht as <-. auto. }
  apply (GET_try_plain_500 key fetch).
  rewrite (GET_try_after_content _ _ _ _ Hout Hcontent).
  unfold prop. rewrite bind_lift, Husage, bind_lift, Hp.
  destruct (template_hole_cases p ([] : console)) as [[Hps Hhole] | [_ Hhole]];
    [|by erewrite bind_throw by exact Hhole].
  erewrite bind_normal by exact Hhole. clear Hhole. rewrite bind_lift, Hc.
  destruct (template_hole_cases c ([] : console)) as [[Hcs Hhole] | [_ Hhole]];
    [|by erewrite bind_throw by exact Hhole].
  erewrite bind_normal by exact Hhole. clear Hhole. rewrite bind_lift, Ht.
  destruct (template_hole_cases t ([] : console)) as [[Hts Hhole] | [_ Hhole]];
    [|by erewrite bind_throw by exact Hhole].
  destruct Hone as [? | [? | ?]]; congruence.
Qed.

Lemma GET_counter_unprintable_witness :
  let usage := obj [("prompt_tokens", obj [("toString", VNum 1)]);
                    ("completion_tokens", VNum 5); ("total_tokens", VNum 15)] in
  let resBody :=
    obj [("choices", VArr [obj [("message", obj [("content", VString "Hi")])]]);
         ("usage", usage)] in
  let fetch := fun (_ : string) (_ : Request.init) =>
    Fetch.Resolves {| Fetch.status := 200; Fetch.payload := Fetch.Json resBody |} in
  returns (call None fetch) 200 resBody
  /\ read_content resBody = Normal (VString "Hi")
  /\ get resBody (lit "usage") = Normal usage
  /\ In "prompt_tokens" counters
  /\ get usage (lit "prompt_tokens") = Normal (obj [("toString", VNum 1)])
  /\ to_string_throws (obj [("toString", VNum 1)]) = true
  /\ invoke None fetch
     = ([LogThrown (lit "Cannot convert object to primitive value") VUndefined VUndefined],
        Normal (failure 500)).
Proof.
  intros usage resBody fetch.
  assert (Hout : returns (call None fetch) 200 resBody) by constructor.
  assert (Hcontent : read_content resBody = Normal (VString "Hi")) by reflexivity.
  assert (Husage : get resBody (lit "usage") = Normal usage) by reflexivity.
  assert (Hname : In "prompt_tokens" counters) by (left; reflexivity).
  assert (Hv : get usage (lit "prompt_tokens") = Normal (obj [("toString", VNum 1)]))
    by reflexivity.
  assert (Hthrows : to_string_throws (obj [("toString", VNum 1)]) = true) by reflexivity.
  split; [exact Hout|]. split; [exact Hcontent|]. split; [exact Husage|].
  split; [exact Hname|]. split; [exact Hv|]. split; [exact Hthrows|].
  exact (GET_counter_unprintable None fetch resBody (lit "Hi") usage "prompt_tokens"
           (obj [("toString", VNum 1)]) Hout Hcontent Husage Hname Hv Hthrows).
Defined.


(** X4.  Every response the handler returns keeps to the envelope: the
    JSON content type, a status from 200 to 599, and as body either a
    completion or the generic error. *)
Theorem GET_response_envelope key fetch r :
  returned key fetch = Some r ->
  Response.headers r = [("Content-Type", "application/json")]
  /\ 200 <= Response.status r <= 599
  /\ ((exists t, r = success t) \/ r = failure (Response.status r)).
Proof.
  unfold returned. rewrite invoke_unfold.
  destruct (GET_try key fetch []) as [out [r'|e]] eqn:Htry.
  - intros [= ->].
    destruct (GET_try_outcome _ _ _ _ Htry)
      as [? content ? ? ? ? _ _ _ _ _ _ _ _ _ _ _ Hr | ? _ [=] | ? ? _ _ _ [=]].
    apply Normal_inj in Hr as ->. simpl. repeat split; try lia. left. eauto.
  - destruct (GET_catch e out) as [out' [r'|e']] eqn:Hcatch; [|discriminate].
    intros [= ->]. apply GET_catch_returns in Hcatch as (Hr & Hrange & _).
    repeat split; try lia; [by rewrite Hr | by right].
Qed.

Lemma GET_response_envelope_witness :
  let fetch := fun (_ : string) (_ : Request.init) =>
    Fetch.Resolves {| Fetch.status := 503; Fetch.payload := Fetch.Json (obj []) |} in
  returned None fetch = Some (failure 503)
  /\ Response.headers (failure 503) = [("Content-Type", "application/json")]
  /\ 200 <= Response.status (failure 503) <= 599
  /\ ((exists t, failure 503 = success t)
      \/ failure 503 = failure (Response.status (failure 503))).
Proof.
  intros fetch.
  assert (Hret : returned None fetch = Some (failure 503)) by reflexivity.
  split; [exact Hret|].
  exact (GET_response_envelope None fetch (failure 503) Hret).
Defined.

(** X5.  For an outbound call with a status from 200 to 599, status 200 is
    only ever sent with a completion: the generic error body never goes
    out under status 200. *)
Theorem GET_ok_is_completion key fetch r :
  Fetch.deliverable (call key fetch) = true ->
  returned key fetch = Some r ->
  Response.status r = 200 ->
  exists t, r = success t.
Proof.
  intros Hdeliverable. unfold returned. rewrite invoke_unfold.
  destruct (GET_try key fetch []) as [out [r'|e]] eqn:Htry.
  - intros [= ->] _.
    destruct (GET_try_outcome _ _ _ _ Htry)
      as [? content ? ? ? ? _ _ _ _ _ _ _ _ _ _ _ Hr | ? _ [=] | ? ? _ _ _ [=]].
    apply Normal_inj in Hr as ->. eauto.
  - destruct (GET_try_outcome _ _ _ _ Htry)
      as [? ? ? ? ? ? _ _ _ _ _ _ _ _ _ _ _ [=]
         | msg -> He
         | status resBody Hout Hstatus -> He].
    + assert (e = Error.plain msg) as -> by (by injection He).
      rewrite RouteSpec.GET_catch_plain. by intros [= <-].
    + assert (e = unsuccessful status resBody) as -> by (by injection He).
      destruct (returns_deliverable _ _ _ Hout Hdeliverable) as [Hrange Hnull].
      rewrite RouteSpec.GET_catch_unsuccessful by done.
      intros [= <-]. done.
Qed.

Lemma GET_ok_is_completion_witness :
  let resBody :=
    obj [("choices", VArr [obj [("message", obj [("content", VString "Hi")])]]);
         ("usage", obj [])] in
  let fetch := fun (_ : string) (_ : Request.init) =>
    Fetch.Resolves {| Fetch.status := 200; Fetch.payload := Fetch.Json resBody |} in
  Fetch.deliverable (call None fetch) = true
  /\ returned None fetch = Some (success (lit "Hi"))
  /\ Response.status (success (lit "Hi")) = 200
  /\ exists t, success (lit "Hi") = success t.
Proof.
  intros resBody fetch.
  assert (Hdel : Fetch.deliverable (call None fetch) = true) by reflexivity.
  assert (Hret : returned None fetch = Some (success (lit "Hi"))) by reflexivity.
  assert (Hstatus : Response.status (success (lit "Hi")) = 200) by reflexivity.
  split; [exact Hdel|]. split; [exact Hret|]. split; [exact Hstatus|].
  exact (GET_ok_is_completion None fetch (success (lit "Hi")) Hdel Hret Hstatus).
Defined.

(** X6.  Every invocation writes exactly one line to the console: the
    results line when a completion is returned, the error line in every
    other case. *)
Theorem GET_one_log_line key fetch :
  exists l,
    (invoke key fetch).1 = [l]
    /\ match l with
       | LogResults t _ _ _ => returned key fetch = Some (success t)
       | LogThrown _ _ _ => forall t, returned key fetch <> Some (success t)
       end.
Proof.
  unfold returned. rewrite invoke_unfold.
  destruct (GET_try key fetch []) as [out [r|e]] eqn:Htry.
  - destruct (GET_try_outcome _ _ _ _ Htry)
      as [? content ? p ct t _ _ _ _ _ _ _ _ _ _ -> Hr | ? _ [=] | ? ? _ _ _ [=]].
    apply Normal_inj in Hr as ->. by eexists.
  - assert (out = []) as ->.
    { by destruct (GET_try_outcome _ _ _ _ Htry)
        as [? ? ? ? ? ? _ _ _ _ _ _ _ _ _ _ _ [=] | ? -> _ | ? ? _ _ -> _]. }
    pose proof (GET_catch_console e []) as Hconsole.
    destruct (GET_catch e []) as [out' [r|e']] eqn:Hcatch; simpl in Hconsole |- *;
      subst out'; eexists; (split; [reflexivity|]); try done.
    intros t [= ->]. apply GET_catch_returns in Hcatch as [Hr _].
    by destruct (success_not_failure _ _ Hr).
Qed.




End RouteExtra.

(** ** More on the client view *)

Module PageFacts.
Import Page Call RouteFacts.

(** The [try] block of the handler ends the same way from every state:
    it throws, or it sets the reply to a text that the state has no part
    in. *)
Lemma onSubmit_try_uniform fetch :
  (exists e, forall st, onSubmit_try fetch st = (st, Throw e))
  \/ (exists text, forall st,
        onSubmit_try fetch st
        = ({| reply := text; loadingStatus := loadingStatus st;
              defaultPrevented := defaultPrevented st |}, Normal tt)).
Proof.
  unfold onSubmit_try.
  destruct (fetch "/api/hello") as [[status [body|msg]]|msg].
  - cbn [Fetch.await]. destruct (decide (status = 200)) as [->|Hstatus].
    + destruct (get body (lit "completion")) as [text|e] eqn:E.
      * right. exists text. intros st.
        do 2 erewrite bind_normal by reflexivity.
        cbn [Fetch.status]. case_decide; [|done].
        unfold prop. by rewrite bind_lift, E.
      * left. exists e. intros st.
        do 2 erewrite bind_normal by reflexivity.
        cbn [Fetch.status]. case_decide; [|done].
        unfold prop. by rewrite bind_lift, E.
    + destruct (get body (lit "error")) as [error|e] eqn:E.
      * destruct (get error (lit "message")) as [text|e] eqn:E'.
        -- right. exists text. intros st.
           do 2 erewrite bind_normal by reflexivity.
           cbn [Fetch.status]. case_decide; [done|].
           unfold prop.
           erewrite bind_normal by (by rewrite bind_lift, E, E').
           reflexivity.
        -- left. exists e. intros st.
           do 2 erewrite bind_normal by reflexivity.
           cbn [Fetch.status]. case_decide; [done|].
           unfold prop.
           erewrite bind_throw by (by rewrite bind_lift, E, E').
           reflexivity.
      * left. exists e. intros st.
        do 2 erewrite bind_normal by reflexivity.
        cbn [Fetch.status]. case_decide; [done|].
        unfold prop.
        erewrite bind_throw by (by rewrite bind_lift, E).
        reflexivity.
  - left. eexists. intros st.
    erewrite bind_normal by reflexivity. by apply bind_throw.
  - left. eexists. intros st. by apply bind_throw.
Qed.

Lemma after_text status body text st :
  (if decide (status = 200)
   then get body (lit "completion")
   else match get body (lit "error") with
        | Normal error => get error (lit "message")
        | Throw e => Throw e
        end) = Normal text ->
  after (Fetch.Resolves {| Fetch.status := status; Fetch.payload := Fetch.Json body |}) st
  = settled_with text.
Proof.
  intros Hread. unfold after.
  erewrite PageSpec.onSubmit_set; [reflexivity|].
  unfold onSubmit_try.
  do 2 erewrite bind_normal by reflexivity.
  erewrite (bind_normal _ _ _ _ text); cycle 1.
  { cbn [Fetch.status]. destruct (decide (status = 200)).
    - unfold prop, lift. by rewrite Hread.
    - unfold prop. rewrite bind_lift.
      destruct (get body (lit "error")); [|discriminate].
      unfold lift. by rewrite Hread. }
  reflexivity.
Qed.

End PageFacts.

Module PageExtra.
Import Page Call View RouteFacts PageFacts.

(** X8.  One run of the handler taken on its own, with no other click
    settling during it: it ends normally, in a state that depends only
    on how its call settled and not on the state it started from; the
    reply is the one this run set and [loadingStatus] is false. *)
Theorem onSubmit_overwrites fetch :
  exists text, forall st, onSubmit fetch st = (settled_with text, Normal tt).
Proof.
  destruct (onSubmit_try_uniform fetch) as [[e Htry] | [text Htry]].
  - exists fallback. intros st. by apply (PageSpec.onSubmit_caught _ _ e).
  - exists text. intros st. apply PageSpec.onSubmit_set. by rewrite Htry.
Qed.

(** X9.  With status 200 and a JSON body other than [null] that has no
    [completion] member, nothing throws and the reply becomes
    [undefined], not the fallback string. *)
Theorem onSubmit_completion_missing body st :
  nullish body = false ->
  own body "completion" = None ->
  after (Fetch.Resolves {| Fetch.status := 200; Fetch.payload := Fetch.Json body |}) st
  = settled_with VUndefined.
Proof.
  intros Hbody Hown. apply after_text.
  destruct (decide _); [|done].
  destruct body; try discriminate; try reflexivity.
  unfold own in Hown. simpl. by rewrite Hown.
Qed.

Lemma onSubmit_completion_missing_witness :
  let body := obj [("text", VString "Hello, World!")] in
  nullish body = false
  /\ own body "completion" = None
  /\ after (Fetch.Resolves {| Fetch.status := 200; Fetch.payload := Fetch.Json body |})
           initial
     = settled_with VUndefined.
Proof.
  intros body.
  assert (Hbody : nullish body = false) by reflexivity.
  assert (Hown : own body "completion" = None) by reflexivity.
  split; [exact Hbody|]. split; [exact Hown|].
  exact (onSubmit_completion_missing body initial Hbody Hown).
Defined.

(** X10.  With a status other than 200 and a body whose [error] member
    is there (an object without [message], or a plain string or number),
    reading [message] throws nothing and the reply becomes [undefined],
    not the fallback string. *)
Theorem onSubmit_message_missing status body error st :
  status <> 200 ->
  own body "error" = Some error ->
  nullish error = false ->
  own error "message" = None ->
  after (Fetch.Resolves {| Fetch.status := status; Fetch.payload := Fetch.Json body |}) st
  = settled_with VUndefined.
Proof.
  intros Hstatus Herror Hnullish Hmessage. apply after_text.
  destruct (decide _); [done|].
  destruct body; try discriminate. unfold own in Herror. simpl. rewrite Herror. simpl.
  destruct error; try discriminate; try reflexivity.
  unfold own in Hmessage. simpl. by rewrite Hmessage.
Qed.

Lemma onSubmit_message_missing_witness :
  let body := obj [("error", VString "rate limited")] in
  429 <> 200
  /\ own body "error" = Some (VString "rate limited")
  /\ nullish (VString "rate limited") = false
  /\ own (VString "rate limited") "message" = None
  /\ after (Fetch.Resolves {| Fetch.status := 429; Fetch.payload := Fetch.Json body |})
           initial
     = settled_with VUndefined.
Proof.
  intros body.
  assert (Hstatus : 429 <> 200) by lia.
  assert (Herror : own body "error" = Some (VString "rate limited")) by reflexivity.
  assert (Hnullish : nullish (VString "rate limited") = false) by reflexivity.
  assert (Hmessage : own (VString "rate limited") "message" = None) by reflexivity.
  split; [exact Hstatus|]. split; [exact Herror|]. split; [exact Hnullish|].
  split; [exact Hmessage|].
  exact (onSubmit_message_missing 429 body (VString "rate limited") initial
           Hstatus Herror Hnullish Hmessage).
Defined.

Lemma onSubmit_start_then_finish fetch :
  onSubmit fetch = (onSubmit_start;; Clicks.onSubmit_finish (fetch "/api/hello")).
Proof. reflexivity. Qed.

Lemma run_snoc events e st :
  Clicks.run (events ++ [e]) st = Clicks.step (Clicks.run events st) e.
Proof. unfold Clicks.run. by rewrite fold_left_app. Qed.

Lemma onSubmit_finish_uniform settled :
  exists text, forall st,
    Clicks.onSubmit_finish settled st
    = ({| reply := text; loadingStatus := false;
          defaultPrevented := defaultPrevented st |}, Normal tt).
Proof.
  destruct (onSubmit_try_uniform (fun _ => settled)) as [[e Htry] | [text Htry]].
  - exists fallback. intros st.
    unfold Clicks.onSubmit_finish, mbind, M_bind, bind, try_catch.
    by rewrite Htry.
  - exists text. intros st.
    unfold Clicks.onSubmit_finish, mbind, M_bind, bind, try_catch.
    by rewrite Htry.
Qed.

(** Two clicks whose calls settle in the other order: the image is gone
    while the first call is still out, and the first click's result,
    which lands last, replaces the second's. *)
Example clicks_overlapping :
  let first := Fetch.Resolves {| Fetch.status := 200;
                                 Fetch.payload := Fetch.Json (obj [("completion", VString "one")]) |} in
  let second := Fetch.Resolves {| Fetch.status := 200;
                                  Fetch.payload := Fetch.Json (obj [("completion", VString "two")]) |} in
  result_area (Clicks.run [Clicks.Click; Clicks.Click; Clicks.Settle second] initial)
  = Div [P (VString "two")]
  /\ result_area (Clicks.run [Clicks.Click; Clicks.Click; Clicks.Settle second;
                              Clicks.Settle first] initial)
     = Div [P (VString "one")].
Proof. split; reflexivity. Qed.

(** X11.  With clicks that overlap in any order, the result area shows
    the latest event only: right after a click, the loading image; right
    after a call has settled, the paragraph with the reply that the
    outcome of this call gives, also while other calls are still out and
    also when the call is that of an earlier click.  No count of the
    calls in flight is kept: the last settlement wins. *)
Theorem result_area_latest_event settled :
  (forall events st,
     result_area (Clicks.run (events ++ [Clicks.Click]) st)
     = Div [Image "three-dots.svg" 60 15])
  /\ exists text, forall events st,
       Clicks.run (events ++ [Clicks.Settle settled]) st
       = {| reply := text; loadingStatus := false;
            defaultPrevented := defaultPrevented (Clicks.run events st) |}
       /\ result_area (Clicks.run (events ++ [Clicks.Settle settled]) st)
          = Div [P text].
Proof.
  split.
  - intros events st. by rewrite run_snoc.
  - destruct (onSubmit_finish_uniform settled) as [text Hfinish].
    exists text. intros events st. rewrite run_snoc.
    unfold Clicks.step. by rewrite Hfinish.
Qed.

End PageExtra.

(** ** The endpoint and the view together *)

Module EndToEnd.
Import Route Outbound OutboundFacts Contract Page Call Transport RouteFacts PageFacts.

Lemma shows_completion t st :
  after (serve (success t)) st = settled_with (VStr t).
Proof.
  change (serve (success t))
    with (Fetch.Resolves {| Fetch.status := 200;
                            Fetch.payload := Fetch.Json (obj [("completion", VStr t)]) |}).
  apply after_text. case_decide; [|done].
  unfold obj, get. cbn [fold_left fst snd]. by rewrite lookup_insert_eq.
Qed.

Lemma shows_generic_message status st :
  status <> 200 ->
  after (serve (failure status)) st = settled_with (VString "An error has occurred").
Proof.
  intros Hstatus.
  change (serve (failure status))
    with (Fetch.Resolves {| Fetch.status := status;
                            Fetch.payload := Fetch.Json (Response.body (failure status)) |}).
  apply after_text. case_decide; [done|]. reflexivity.
Qed.

(** X12.  From the upstream answer to the page, for a call with a
    status from 200 to 599 and a handler that returns: the reader sees either the
    trimmed text read at [choices[0].message.content] of an upstream
    answer with status 200, or exactly "An error has occurred"; nothing
    else of an upstream answer reaches the page. *)
Theorem page_shows_completion_or_generic key fetch r st :
  Fetch.deliverable (call key fetch) = true ->
  returned key fetch = Some r ->
  (exists resBody content,
     returns (call key fetch) 200 resBody
     /\ read_content resBody = Normal (VStr content)
     /\ after (serve r) st = settled_with (VStr (trim content)))
  \/ after (serve r) st = settled_with (VString "An error has occurred").
Proof.
  intros Hdeliverable. unfold returned. rewrite invoke_unfold.
  destruct (GET_try key fetch []) as [out [r'|e]] eqn:Htry.
  - intros [= ->]. left.
    destruct (GET_try_outcome _ _ _ _ Htry)
      as [resBody content ? ? ? ? Hout Hcontent _ _ _ _ _ _ _ _ _ Hr | ? _ [=] | ? ? _ _ _ [=]].
    apply Normal_inj in Hr as ->.
    exists resBody, content. split; [done|]. split; [done|]. apply shows_completion.
  - right.
    destruct (GET_try_outcome _ _ _ _ Htry)
      as [? ? ? ? ? ? _ _ _ _ _ _ _ _ _ _ _ [=]
         | msg -> He
         | status resBody Hout Hstatus -> He].
    + assert (e = Error.plain msg) as -> by (by injection He).
      rewrite RouteSpec.GET_catch_plain in H. injection H as <-.
      by apply shows_generic_message.
    + assert (e = unsuccessful status resBody) as -> by (by injection He).
      destruct (returns_deliverable _ _ _ Hout Hdeliverable) as [Hrange Hnull].
      rewrite RouteSpec.GET_catch_unsuccessful in H by done. injection H as <-.
      by apply shows_generic_message.
Qed.

Lemma page_shows_completion_or_generic_witness :
  let resBody := obj [("error", VString "rate limited")] in
  let fetch := fun (_ : string) (_ : Request.init) =>
    Fetch.Resolves {| Fetch.status := 429; Fetch.payload := Fetch.Json resBody |} in
  Fetch.deliverable (call None fetch) = true
  /\ returned None fetch = Some (failure 429)
  /\ ((exists resBody' content,
         returns (call None fetch) 200 resBody'
         /\ read_content resBody' = Normal (VStr content)
         /\ after (serve (failure 429)) initial = settled_with (VStr (trim content)))
      \/ after (serve (failure 429)) initial
         = settled_with (VString "An error has occurred")).
Proof.
  intros resBody fetch.
  assert (Hdel : Fetch.deliverable (call None fetch) = true) by reflexivity.
  assert (Hret : returned None fetch = Some (failure 429)) by reflexivity.
  split; [exact Hdel|]. split; [exact Hret|].
  exact (page_shows_completion_or_generic None fetch (failure 429) initial Hdel Hret).
Defined.

End EndToEnd.
